(** * Profile-merge scripts: chunker, identity/events driver, bulk-events driver

    A shallow embedding of the three Python scripts

      - [chunkify.py]                                  (module [Chunkify]),
      - [step1_email_mobile_identifier_child_profiles.py] (module [Step1]),
      - [step2_email_identifier_winner_profile.py]     (module [Step2]),

    and the properties of their retry loops, row processing and chunking.

    The scripts talk to the outside world through [requests.post],
    [time.sleep], the [logging] module and CSV files.  The embedding makes
    that world explicit: a run appends the effects it performs to a trace,
    and the answer to the n-th POST of a run is read from a response
    sequence [nat -> NetOutcome] (the remote side and the network). *)

From Stdlib Require Import ZArith String Ascii List Lia DecimalString.
From stdpp Require Import base option list gmap strings.

Local Open Scope string_scope.
Local Open Scope Z_scope.
Local Open Scope list_scope.

(** ** Python values shared by the scripts *)

Module Py.

(** Exception classes that occur in the scripts.  Every class except
    [RequestException] stands for an exception that
    [except requests.exceptions.RequestException] does not catch. *)
Inductive ExcClass :=
| RequestException
| AttributeError
| KeyError
| TypeError
| OSError
| StopIteration
| OtherError.

(** An exception value: its class and [str(e)]. *)
Record exn := Exn { exc_class : ExcClass; exc_text : string }.

Definition is_request_exception (e : exn) : bool :=
  match exc_class e with RequestException => true | _ => false end.

(** The result of evaluating
    [resp.json().get("Errors", [{}])[0].get("message")] on a response:
    a value ([Some s] for the string [s], [None] for [None] and for any
    value that is not a string), or the exception the expression raises
    (a body that is not JSON, an empty [Errors] list, ...). *)
Inductive Probe :=
| ProbeValue (m : option string)
| ProbeRaises (e : exn).

(** What the scripts read from a [requests.Response]. *)
Record Response := {
  status_code : Z;
  text : string;
  errors_message : Probe
}.

(** One call of [requests.post]: a response, or a raised exception. *)
Inductive NetOutcome :=
| Responds (r : Response)
| Fails (e : exn).

(** Outcome of running a piece of the script: a value, an exception that
    propagates, or [OutOfFuel] when the bound on loop iterations and nested
    calls given to the model is used up. *)
Inductive Res (A : Type) :=
| Ok (a : A)
| Raised (e : exn)
| OutOfFuel.
Arguments Ok {A} a.
Arguments Raised {A} e.
Arguments OutOfFuel {A}.

(** [str(n)] for a Python int. *)
Definition str_of_Z (z : Z) : string := NilZero.string_of_int (Z.to_int z).
Definition str_of_nat (n : nat) : string := str_of_Z (Z.of_nat n).

(** Characters for which [str.isspace] holds, among code points below 256. *)
Definition is_space (c : ascii) : bool :=
  let n := nat_of_ascii c in
  ((9 <=? n) && (n <=? 13) || (28 <=? n) && (n <=? 32)
   || (n =? 133) || (n =? 160))%nat.

Definition is_empty (s : string) : bool :=
  match s with EmptyString => true | _ => false end.

Fixpoint lstrip_by (p : ascii -> bool) (s : string) : string :=
  match s with
  | EmptyString => EmptyString
  | String c r => if p c then lstrip_by p r else s
  end.

Fixpoint rstrip_by (p : ascii -> bool) (s : string) : string :=
  match s with
  | EmptyString => EmptyString
  | String c r =>
      let r' := rstrip_by p r in
      if p c && is_empty r' then EmptyString else String c r'
  end.

(** [s.strip()] and [s.strip(ch)] for a one-character [ch]. *)
Definition strip_by (p : ascii -> bool) (s : string) : string :=
  rstrip_by p (lstrip_by p s).
Definition strip (s : string) : string := strip_by is_space s.
Definition strip_char (ch : ascii) (s : string) : string :=
  strip_by (fun c => Ascii.eqb c ch) s.

(** [s.startswith(p)]. *)
Definition startswith (p s : string) : bool := String.prefix p s.

(** [x or y] on values that are [None] or a string: the empty string is
    falsy. *)
Definition truthy (x : option string) : bool :=
  match x with Some s => negb (is_empty s) | None => false end.
Definition por (x y : option string) : option string :=
  if truthy x then x else y.

(** [x or EMPTY] where a string is expected, [EMPTY] the empty string. *)
Definition or_empty (x : option string) : string :=
  match x with Some s => s | None => EmptyString end.

End Py.
Import Py.

(** ** step1_email_mobile_identifier_child_profiles.py *)

Module Step1.

(** *** Configuration *)

Definition IDENTITY_BASE_URL : string := "https://identity.mparticle.com/v1".
Definition EVENTS_BASE_URL : string := "https://s2s.mparticle.com/v2/events".
Definition ENVIRONMENT : string := "production".
Definition DRY_RUN : bool := false.
(** Durations are in milliseconds: [RATE_LIMIT_DELAY = 0.2] and
    [INITIAL_BACKOFF = 1.0] seconds. *)
Definition RATE_LIMIT_DELAY : nat := 200.
Definition MAX_RETRIES : nat := 3.
Definition INITIAL_BACKOFF : nat := 1000.
Definition EMAIL_HEADER : string := "Email_Address".
Definition MPID_HEADER : string := "External_ID".
Definition PHONE_HEADER : string := "Phone_Number".
Definition RESULT_SUMMARY : string := "results_summary.csv".

(** *** Data *)

(** One entry of ["identity_changes"]. *)
Record IdentityChange := {
  old_value : option string;
  new_value : option string;
  identity_type : string
}.

(** The two JSON bodies the script posts.  The events body is constant
    apart from its ["mpid"] and ["environment"]. *)
Inductive PayloadBody :=
| ModifyBody (identity_changes : list IdentityChange)
| EventsBody (mpid : string).

Record Payload := {
  environment : string;
  body : PayloadBody
}.

Definition Auth : Type := option (string * string).

(** A row of the per-file summary. *)
Record ResultRecord := {
  r_mpid : string;
  r_email : string;
  r_phone : string;
  modify_status : string;
  events_status : string;
  retries : nat;
  message : string
}.

Inductive LogLevel := WARNING | ERROR.

(** Effects of a run, in the order they happen.  [logger.info] lines are
    not recorded; warnings and errors are. *)
Inductive Event :=
| EPost (url : string) (auth : Auth) (json : Payload)
| ESleep (ms : nat)
| ELog (level : LogLevel) (msg : string)
| EWriteSummary (path : string) (rows : list ResultRecord).

Abbreviation World := (list Event).

Definition is_post (e : Event) : bool :=
  match e with EPost _ _ _ => true | _ => false end.

(** Number of [requests.post] calls in a trace. *)
Definition posts_made (w : World) : nat := length (filter is_post w).

(** What [retryable_post] returns. *)
Definition PostResult : Type := option Response * nat * option string.

(** The variables one activation of [retryable_post] assigns, together
    with the payload object it shares with its caller and the trace. *)
Record Frame := {
  resp : option Response;
  attempt : nat;
  last_err : option string;
  json_payload : Payload;
  world : World
}.

Definition init_frame (p : Payload) (w : World) : Frame :=
  {| resp := None; attempt := 0; last_err := None;
     json_payload := p; world := w |}.
Definition set_resp (r : option Response) (fr : Frame) : Frame :=
  {| resp := r; attempt := attempt fr; last_err := last_err fr;
     json_payload := json_payload fr; world := world fr |}.
Definition set_attempt (a : nat) (fr : Frame) : Frame :=
  {| resp := resp fr; attempt := a; last_err := last_err fr;
     json_payload := json_payload fr; world := world fr |}.
Definition set_last_err (e : option string) (fr : Frame) : Frame :=
  {| resp := resp fr; attempt := attempt fr; last_err := e;
     json_payload := json_payload fr; world := world fr |}.
Definition set_payload (p : Payload) (fr : Frame) : Frame :=
  {| resp := resp fr; attempt := attempt fr; last_err := last_err fr;
     json_payload := p; world := world fr |}.
Definition set_world (w : World) (fr : Frame) : Frame :=
  {| resp := resp fr; attempt := attempt fr; last_err := last_err fr;
     json_payload := json_payload fr; world := w |}.

(** [time.sleep(ms)]. *)
Definition sleep (ms : nat) (fr : Frame) : Frame :=
  set_world (world fr ++ [ESleep ms]) fr.

(** [json_payload["environment"] = env]. *)
Definition set_environment (env : string) (p : Payload) : Payload :=
  {| environment := env; body := body p |}.

(** [json_payload["identity_changes"]]: absent from an events body. *)
Definition body_changes (p : Payload) : option (list IdentityChange) :=
  match body p with
  | ModifyBody l => Some l
  | EventsBody _ => None
  end.

(** [json_payload["identity_changes"][i]["old_value"] = None]. *)
Definition clear_old_value (i : nat) (p : Payload) : Payload :=
  match body p with
  | ModifyBody l =>
      {| environment := environment p;
         body := ModifyBody
           (alter (fun c => {| old_value := None;
                               new_value := new_value c;
                               identity_type := identity_type c |}) i l) |}
  | EventsBody _ => p
  end.

(** How one pass through the [try] block ends when it does not raise. *)
Inductive Flow :=
| FReturn (r : PostResult)
| FContinue.

Definition MSG_NO_MPID : string := "MpId doesn't exist".
Definition MSG_EMPTY_MODIFY : string := "ToModifyIdentities is empty.".

Definition none_has_no_status_code : exn :=
  Exn AttributeError "'NoneType' object has no attribute 'status_code'".
Definition no_identity_changes : exn :=
  Exn KeyError "'identity_changes'".

Section Run.

(** The answer to the n-th POST of the run (counting from 0). *)
Variable server : nat -> NetOutcome.

(** [requests.post(url, auth=auth, json=json, timeout=REQUEST_TIMEOUT)]. *)
Definition requests_post (url : string) (auth : Auth) (json : Payload)
    (w : World) : NetOutcome * World :=
  (server (posts_made w), w ++ [EPost url auth json]).

Section Body.

(** The nested call [retryable_post(url, auth, json_payload, dry_run)]
    on the current payload object. *)
Variable recurse : Payload -> World -> Res PostResult * Payload * World.

(** [resp, attempt, last_err = retryable_post(...)]: the three
    variables are assigned only when the call returns. *)
Definition assign_call (fr : Frame) : Res unit * Frame :=
  match recurse (json_payload fr) (world fr) with
  | (Ok (r, a, e), p, w) =>
      (Ok tt, {| resp := r; attempt := a; last_err := e;
                 json_payload := p; world := w |})
  | (Raised e, p, w) => (Raised e, set_world w (set_payload p fr))
  | (OutOfFuel, p, w) => (OutOfFuel, set_world w (set_payload p fr))
  end.

(** [for ident in json_payload["identity_changes"]: ...] from index
    [i] on, [n] bounding the number of elements left.  The element is
    read from the list object as it is when the iterator reaches it;
    the nested call is made for every element. *)
Fixpoint for_ident (n i : nat) (fr : Frame) : Res unit * Frame :=
  match n with
  | O => (Ok tt, fr)
  | S n' =>
      match body_changes (json_payload fr) ≫= (fun l => l !! i) with
      | None => (Ok tt, fr)
      | Some ident =>
          let fr1 :=
            if String.eqb (identity_type ident) "mobile_number"
            then set_payload (clear_old_value i (json_payload fr)) fr
            else fr in
          match assign_call fr1 with
          | (Ok _, fr2) => for_ident n' (S i) fr2
          | (Raised e, fr2) => (Raised e, fr2)
          | (OutOfFuel, fr2) => (OutOfFuel, fr2)
          end
      end
  end.

(** The [elif resp.status_code == 400:] branch. *)
Definition on_400 (r : Response) (fr : Frame) : Res unit * Frame :=
  match errors_message r with
  | ProbeRaises e => (Raised e, fr)
  | ProbeValue m =>
      if bool_decide (m = Some MSG_NO_MPID) then
        assign_call
          (set_payload (set_environment "development" (json_payload fr)) fr)
      else if bool_decide (m = Some MSG_EMPTY_MODIFY) then
        match body_changes (json_payload fr) with
        | None => (Raised no_identity_changes, fr)
        | Some l => for_ident (length l) 0 fr
        end
      else (Ok tt, fr)
  end.

(** From [last_err = f"Status ..."] to the end of the [try] block. *)
Definition after_branch (fr : Frame) : Res Flow * Frame :=
  match resp fr with
  | None => (Raised none_has_no_status_code, fr)
  | Some r =>
      let fr :=
        set_last_err
          (Some ("Status " +:+ str_of_Z (status_code r) +:+ ": " +:+ text r))
          fr in
      if (500 <=? status_code r) || (status_code r =? 429)
      then (Ok FContinue, fr)
      else (Ok (FReturn (Some r, attempt fr, last_err fr)), fr)
  end.

(** The [try] block of one loop iteration. *)
Definition try_body (url : string) (auth : Auth) (fr : Frame)
    : Res Flow * Frame :=
  match requests_post url auth (json_payload fr) (world fr) with
  | (Fails e, w) => (Raised e, set_world w fr)
  | (Responds r, w) =>
      let fr := set_world w (set_resp (Some r) fr) in
      if (200 <=? status_code r) && (status_code r <? 300) then
        (Ok (FReturn (Some r, attempt fr, None)), fr)
      else
        match
          (if status_code r =? 400 then on_400 r fr else (Ok tt, fr))
        with
        | (Ok _, fr) => after_branch fr
        | (Raised e, fr) => (Raised e, fr)
        | (OutOfFuel, fr) => (OutOfFuel, fr)
        end
  end.

End Body.

(** [while attempt < MAX_RETRIES: ...] of [retryable_post], entered with
    the given [backoff] and variables.  [fuel] bounds the loop
    iterations and nested calls along any chain of the run; CPython
    bounds the nesting by its recursion limit. *)
Fixpoint retryable_post_while (fuel : nat) (url : string) (auth : Auth)
    (dry_run : bool) (backoff : nat) (fr : Frame)
    : Res PostResult * Payload * World :=
  if (attempt fr <? MAX_RETRIES)%nat then
    match fuel with
    | O => (OutOfFuel, json_payload fr, world fr)
    | S fuel' =>
        let recurse (p : Payload) (w : World) :=
          if dry_run then (Ok (None, 0%nat, None), p, w)
          else retryable_post_while fuel' url auth dry_run
                 INITIAL_BACKOFF (init_frame p w) in
        match try_body recurse url auth (set_attempt (S (attempt fr)) fr) with
        | (Ok (FReturn r), fr') => (Ok r, json_payload fr', world fr')
        | (Ok FContinue, fr') =>
            retryable_post_while fuel' url auth dry_run (backoff * 2)
              (sleep backoff fr')
        | (Raised e, fr') =>
            if is_request_exception e then
              retryable_post_while fuel' url auth dry_run (backoff * 2)
                (sleep backoff (set_last_err (Some (exc_text e)) fr'))
            else (Raised e, json_payload fr', world fr')
        | (OutOfFuel, fr') => (OutOfFuel, json_payload fr', world fr')
        end
    end
  else (Ok (None, attempt fr, last_err fr), json_payload fr, world fr).

(** [retryable_post(url, auth, json_payload, dry_run=False)]. *)
Definition retryable_post (fuel : nat) (url : string) (auth : Auth)
    (json_payload : Payload) (dry_run : bool) (w : World)
    : Res PostResult * Payload * World :=
  if dry_run then (Ok (None, 0%nat, None), json_payload, w)
  else retryable_post_while fuel url auth dry_run INITIAL_BACKOFF
         (init_frame json_payload w).

End Run.

(** *** Payload builders *)

(** [x.strip() if x and x.strip() != EMPTY else None], [EMPTY] the empty
    string. *)
Definition normalize_blank (x : option string) : option string :=
  match x with
  | Some s =>
      if negb (is_empty s) && negb (is_empty (strip s))
      then Some (strip s) else None
  | None => None
  end.

Definition build_modify_payload (email phone : option string)
    (environment : string) : Payload :=
  let email := normalize_blank email in
  let phone := normalize_blank phone in
  match email, phone with
  | None, None => {| environment := environment; body := ModifyBody [] |}
  | _, _ =>
      let changes := [] in
      let changes :=
        match email with
        | Some e =>
            changes ++ [{| old_value := Some e; new_value := None;
                           identity_type := "email" |}]
        | None => changes
        end in
      let changes :=
        match phone with
        | Some p =>
            changes ++ [{| old_value := Some p; new_value := None;
                           identity_type := "mobile_number" |}]
        | None => changes
        end in
      {| environment := environment; body := ModifyBody changes |}
  end.

Definition build_events_payload (mpid : string) : Payload :=
  {| environment := ENVIRONMENT; body := EventsBody mpid |}.

(** [make_auth()], from the two credentials of the configuration. *)
Definition make_auth (key secret : string) : Auth :=
  if negb (is_empty key) && negb (is_empty secret)
  then Some (key, secret) else None.

(** *** Row processing *)

(** A row of [csv.DictReader]: column name to cell.  A line with fewer
    cells than the header has columns gives a row that holds [None] in the
    columns it lacks; a column that is not in the header is not a key of
    the row. *)
Abbreviation Row := (gmap string (option string)).

Definition none_has_no_strip : exn :=
  Exn AttributeError "'NoneType' object has no attribute 'strip'".

(** [s.strip() or None]. *)
Definition strip_or_none (s : string) : option string :=
  let s := strip s in
  if is_empty s then None else Some s.

(** [row.get(header, EMPTY).strip() or None], [EMPTY] the empty string: the
    default stands in for a key the row does not have, not for a cell that
    is [None], on which [.strip()] raises. *)
Definition cell (row : Row) (header : string) : Res (option string) :=
  match default (Some EmptyString) (row !! header) with
  | Some s => Ok (strip_or_none s)
  | None => Raised none_has_no_strip
  end.

(** The line of the row was too short to have a cell in this column. *)
Definition short_of (row : Row) (header : string) : Prop :=
  row !! header = Some None.

(** The row holds a string in this column, or has no such column. *)
Definition readable (row : Row) (header : string) : Prop :=
  row !! header <> Some None.

(** The three columns the script reads can be read. *)
Definition full_row (row : Row) : Prop :=
  readable row EMAIL_HEADER /\ readable row MPID_HEADER
  /\ readable row PHONE_HEADER.

(** A column is blank in a row: its cell is a string that is empty once
    stripped, or the row has no such column. *)
Definition blank_or_absent (row : Row) (header : string) : Prop :=
  match row !! header with
  | None => True
  | Some (Some s) => strip s = EmptyString
  | Some None => False
  end.


Definition cell_text (row : Row) (header : string) : string :=
  match row !! header with
  | Some (Some s) => strip s
  | _ => EmptyString
  end.

Definition MSG_SKIPPED : string := "SKIPPED: Missing MPID".

(** [str(resp.status_code)] or ["failed"]. *)
Definition status_text (resp : option Response) : string :=
  match resp with
  | Some r => str_of_Z (status_code r)
  | None => "failed"
  end.

Section Files.

Variable server : nat -> NetOutcome.
(** Credentials from the environment variables. *)
Variables MPARTICLE_API_KEY MPARTICLE_API_SECRET : string.
(** The chunk files: the rows [csv.DictReader] yields for a path and,
    if reading fails ([open] or decoding), the exception raised after
    them. *)
Variable chunk_file : string -> list Row * option exn.
(** [os.path.splitext(os.path.basename(path))[0]]. *)
Variable filestem : string -> string.

(** The body of [for row in reader:] for one row: the three cells are
    read, in this order, before anything else is done. *)
Definition process_row (fuel : nat) (dry_run : bool) (rate_limit : nat)
    (auth : Auth) (row_num : nat) (row : Row)
    (results : list ResultRecord) (w : World)
    : Res (list ResultRecord) * World :=
  match cell row EMAIL_HEADER with
  | Raised e => (Raised e, w)
  | OutOfFuel => (OutOfFuel, w)
  | Ok email =>
  match cell row MPID_HEADER with
  | Raised e => (Raised e, w)
  | OutOfFuel => (OutOfFuel, w)
  | Ok mpid =>
  match cell row PHONE_HEADER with
  | Raised e => (Raised e, w)
  | OutOfFuel => (OutOfFuel, w)
  | Ok phone =>
  match mpid with
  | None =>
      let msg := MSG_SKIPPED in
      let w := w ++ [ELog WARNING
                       ("Row " +:+ str_of_nat row_num +:+ ": " +:+ msg)] in
      (Ok (results ++ [{| r_mpid := EmptyString; r_email := or_empty email;
                          r_phone := or_empty phone;
                          modify_status := "skipped";
                          events_status := "skipped";
                          retries := 0; message := msg |}]), w)
  | Some mpid =>
      (* Step 1 - Modify API *)
      let modify_url := IDENTITY_BASE_URL +:+ "/" +:+ mpid +:+ "/modify" in
      let modify_payload := build_modify_payload email phone ENVIRONMENT in
      let modify :=
        if dry_run then (Ok ("dry-run", 0%nat, None), w)
        else
          match retryable_post server fuel modify_url auth
                  modify_payload false w with
          | (Ok (resp, attempts, err), _, w) =>
              (Ok (status_text resp, attempts, err), w)
          | (Raised e, _, w) => (Raised e, w)
          | (OutOfFuel, _, w) => (OutOfFuel, w)
          end in
      match modify with
      | (Raised e, w) => (Raised e, w)
      | (OutOfFuel, w) => (OutOfFuel, w)
      | (Ok (modify_status, modify_attempts, modify_err), w) =>
          (* Step 2 - Events API (only if Modify succeeded) *)
          let events :=
            if dry_run then (Ok ("dry-run", 0%nat, None), w)
            else if startswith "2" modify_status then
              let events_payload := build_events_payload mpid in
              match retryable_post server fuel EVENTS_BASE_URL auth
                      events_payload false w with
              | (Ok (resp2, attempts2, err2), _, w) =>
                  (Ok (status_text resp2, attempts2, err2), w)
              | (Raised e, _, w) => (Raised e, w)
              | (OutOfFuel, _, w) => (OutOfFuel, w)
              end
            else (Ok ("skipped_modify_failed", 0%nat, None), w) in
          match events with
          | (Raised e, w) => (Raised e, w)
          | (OutOfFuel, w) => (OutOfFuel, w)
          | (Ok (events_status, events_attempts, events_err), w) =>
              (Ok (results ++
                   [{| r_mpid := mpid; r_email := or_empty email;
                       r_phone := or_empty phone;
                       modify_status := modify_status;
                       events_status := events_status;
                       retries := modify_attempts + events_attempts;
                       message := or_empty (por modify_err events_err) |}]),
               w ++ [ESleep rate_limit])
          end
      end
  end
  end
  end
  end.

(** [for row in reader:] over the rows read so far. *)
Fixpoint process_rows (fuel : nat) (dry_run : bool) (rate_limit : nat)
    (auth : Auth) (row_num : nat) (rows : list Row)
    (results : list ResultRecord) (w : World)
    : Res (list ResultRecord) * World :=
  match rows with
  | [] => (Ok results, w)
  | row :: rows' =>
      let row_num := S row_num in
      match process_row fuel dry_run rate_limit auth row_num row results w with
      | (Ok results, w) =>
          process_rows fuel dry_run rate_limit auth row_num rows' results w
      | other => other
      end
  end.

Definition summary_path_of (file_path : string) : string :=
  "summaries/" +:+ filestem file_path +:+ "_summary.csv".

(** [process_file(file_path, dry_run, rate_limit)]: returns the path of
    the summary it wrote. *)
Definition process_file (fuel : nat) (file_path : string) (dry_run : bool)
    (rate_limit : nat) (w : World) : Res string * World :=
  let summary_path := summary_path_of file_path in
  let auth := make_auth MPARTICLE_API_KEY MPARTICLE_API_SECRET in
  let '(rows, read_error) := chunk_file file_path in
  match process_rows fuel dry_run rate_limit auth 0 rows [] w with
  | (Ok results, w) =>
      match read_error with
      | Some e => (Raised e, w)
      | None =>
          (Ok summary_path, w ++ [EWriteSummary summary_path results])
      end
  | (Raised e, w) => (Raised e, w)
  | (OutOfFuel, w) => (OutOfFuel, w)
  end.

(** The rows of the summary file at [path], as last written. *)
Fixpoint read_summary (path : string) (w : World)
    : option (list ResultRecord) :=
  match w with
  | [] => None
  | e :: w' =>
      match read_summary path w' with
      | Some rows => Some rows
      | None =>
          match e with
          | EWriteSummary p rows =>
              if String.eqb p path then Some rows else None
          | _ => None
          end
      end
  end.

Definition no_such_file (path : string) : exn :=
  Exn OSError ("[Errno 2] No such file or directory: '" +:+ path +:+ "'").

Fixpoint read_summaries (files : list string) (combined : list ResultRecord)
    (w : World) : Res (list ResultRecord) :=
  match files with
  | [] => Ok combined
  | f :: files' =>
      match read_summary f w with
      | None => Raised (no_such_file f)
      | Some rows => read_summaries files' (combined ++ rows) w
      end
  end.

(** [combine_summaries(files)]. *)
Definition combine_summaries (files : list string) (w : World)
    : Res unit * World :=
  match read_summaries files [] w with
  | Ok [] => (Ok tt, w)
  | Ok combined => (Ok tt, w ++ [EWriteSummary RESULT_SUMMARY combined])
  | Raised e => (Raised e, w)
  | OutOfFuel => (OutOfFuel, w)
  end.

(** [for f in files:] of [main]: no handler around [process_file]. *)
Fixpoint process_files (fuel : nat) (files : list string) (dry_run : bool)
    (rate_limit : nat) (summary_files : list string) (w : World)
    : Res (list string) * World :=
  match files with
  | [] => (Ok summary_files, w)
  | f :: files' =>
      match process_file fuel f dry_run rate_limit w with
      | (Ok summary_path, w) =>
          process_files fuel files' dry_run rate_limit
            (summary_files ++ [summary_path]) w
      | (Raised e, w) => (Raised e, w)
      | (OutOfFuel, w) => (OutOfFuel, w)
      end
  end.

(** [main()], with [files = sorted(glob.glob(INPUT_GLOB))] and the
    run mode given. *)
Definition main_with (fuel : nat) (dry_run : bool) (files : list string)
    (w : World) : Res unit * World :=
  let rate_limit := RATE_LIMIT_DELAY in
  match files with
  | [] =>
      (Ok tt, w ++ [ELog ERROR "No files found in output/childprofiles/chunk"])
  | _ =>
      match process_files fuel files dry_run rate_limit [] w with
      | (Ok summary_files, w) => combine_summaries summary_files w
      | (Raised e, w) => (Raised e, w)
      | (OutOfFuel, w) => (OutOfFuel, w)
      end
  end.

Definition main (fuel : nat) (files : list string) (w : World)
    : Res unit * World :=
  main_with fuel DRY_RUN files w.

End Files.

End Step1.

(** ** step2_email_identifier_winner_profile.py *)

Module Step2.

Definition BULK_API_URL : string := "https://s2s.mparticle.com/v2/bulkevents".
Definition BATCH_SIZE : nat := 100.
Definition ENVIRONMENT : string := "development".
Definition EMAIL_HEADER : string := "Email_Address".
Definition MPID_HEADER : string := "External_ID".

(** A row of [csv.DictReader] as this script reads it: it only calls
    [row.get(header)], which is [None] both for a column the row does not
    have and for a cell that is [None], so the two are one case here. *)
Abbreviation Row := (gmap string string).

(** One element of the JSON array posted to the bulk endpoint; the rest
    of the object is constant. *)
Record UserEvent := {
  ue_email : option string;
  ue_mpid : option string;
  ue_environment : string
}.

(** The third cell of a log row: the HTTP status, or a label. *)
Inductive StatusCell :=
| SCode (status : Z)
| SLabel (label : string).

Record LogRow := {
  l_mpid : option string;
  l_email : option string;
  l_status : StatusCell;
  l_response : string
}.

Inductive LogLevel := WARNING | ERROR.

(** Durations in milliseconds. *)
Inductive Event :=
| EPost (url : string) (auth : option string * option string)
        (json : list UserEvent)
| ESleep (ms : nat)
| ELog (level : LogLevel) (msg : string)
| EWriteLog (rows : list LogRow).

Abbreviation World := (list Event).

Definition is_post (e : Event) : bool :=
  match e with EPost _ _ _ => true | _ => false end.
Definition is_sleep (e : Event) : bool :=
  match e with ESleep _ => true | _ => false end.

Definition posts_made (w : World) : nat := length (filter is_post w).

(** [chunkify(data, size)]: the slices [data[i:i + size]] for [i] in
    [range(0, len(data), size)]; [range] rejects a zero step. *)
Definition chunkify {A : Type} (data : list A) (size : nat)
    : exn + list (list A) :=
  match size with
  | O => inl (Exn OtherError "range() arg 3 must not be zero")
  | _ =>
      inr (map (fun k => take size (drop (k * size) data))
               (seq 0 ((length data + size - 1) / size)))
  end.

Definition user_event (row : Row) : UserEvent :=
  {| ue_email := row !! EMAIL_HEADER;
     ue_mpid := row !! MPID_HEADER;
     ue_environment := ENVIRONMENT |}.

Definition log_row (status : StatusCell) (response : string) (row : Row)
    : LogRow :=
  {| l_mpid := row !! MPID_HEADER; l_email := row !! EMAIL_HEADER;
     l_status := status; l_response := response |}.

Section Run.

Variable server : nat -> NetOutcome.
(** The module constant [DRY_RUN] ([True] as shipped) and the two
    credentials read from the environment. *)
Variable DRY_RUN : bool.
Variables API_KEY API_SECRET : option string.
(** [read_csv(path)]: every row of the file, or the exception raised
    while opening or reading it. *)
Variable read_csv : string -> exn + list Row.

Definition requests_post (json : list UserEvent) (w : World)
    : NetOutcome * World :=
  (server (posts_made w), w ++ [EPost BULK_API_URL (API_KEY, API_SECRET) json]).

(** The POST event of a batch. *)
Definition the_post (batch : list Row) : Event :=
  EPost BULK_API_URL (API_KEY, API_SECRET) (map user_event batch).

(** [for attempt in range(retries):] of [send_batch], from [attempt]
    on, with [n] iterations left.  Falling out of the loop returns
    [None]. *)
Fixpoint send_attempts (batch : list Row) (events_payload : list UserEvent)
    (retries backoff : nat) (n attempt : nat) (w : World)
    : Res (option (list LogRow)) * World :=
  match n with
  | O => (Ok None, w)
  | S n' =>
      match requests_post events_payload w with
      | (Responds response, w) =>
          let status := status_code response in
          let success := status =? 202 in
          (Ok (Some (map (log_row (SCode status)
                             (if success then "Success" else text response))
                         batch)), w)
      | (Fails e, w) =>
          if is_request_exception e then
            let w := w ++ [ELog WARNING
                             ("Attempt " +:+ str_of_nat (attempt + 1)
                              +:+ " failed: " +:+ exc_text e)] in
            if (attempt <? retries - 1)%nat then
              send_attempts batch events_payload retries backoff n'
                (S attempt) (w ++ [ESleep (backoff * 2 ^ attempt)])
            else
              let w := w ++ [ELog ERROR
                               ("Batch failed permanently after "
                                +:+ str_of_nat retries +:+ " attempts: "
                                +:+ exc_text e)] in
              (Ok (Some (map (log_row (SLabel "Error") (exc_text e)) batch)), w)
          else (Raised e, w)
      end
  end.

(** [send_batch(batch, retries=3, backoff=1)]. *)
Definition send_batch (batch : list Row) (retries backoff : nat)
    (w : World) : Res (option (list LogRow)) * World :=
  let events_payload := map user_event batch in
  if DRY_RUN then
    (Ok (Some (map (log_row (SLabel "DRY_RUN") "Simulated") batch)), w)
  else send_attempts batch events_payload retries backoff retries 0 w.

(** [write_log(log_data)]. *)
Definition write_log (log_data : option (list LogRow)) (w : World)
    : Res unit * World :=
  match log_data with
  | Some rows => (Ok tt, w ++ [EWriteLog rows])
  | None => (Raised (Exn TypeError "'NoneType' object is not iterable"), w)
  end.

(** [for batch in chunkify(all_data, BATCH_SIZE):] of [main]. *)
Fixpoint send_batches (batches : list (list Row)) (w : World)
    : Res unit * World :=
  match batches with
  | [] => (Ok tt, w)
  | batch :: batches' =>
      match send_batch batch 3 1000 w with
      | (Ok logs, w) =>
          match write_log logs w with
          | (Ok _, w) => send_batches batches' (w ++ [ESleep 500])
          | other => other
          end
      | (Raised e, w) => (Raised e, w)
      | (OutOfFuel, w) => (OutOfFuel, w)
      end
  end.

(** The [try] block of [main] for one file. *)
Definition process_chunk_file (file_path : string) (w : World)
    : Res unit * World :=
  match read_csv file_path with
  | inr all_data =>
      match chunkify all_data BATCH_SIZE with
      | inr batches => send_batches batches w
      | inl e => (Raised e, w)
      end
  | inl e => (Raised e, w)
  end.

Definition failed_to_process (file_path : string) (e : exn) : Event :=
  ELog ERROR ("Failed to process file " +:+ file_path +:+ ": " +:+ exc_text e).

(** [main()], with [chunk_files = sorted(glob(...))] given: the body of
    the loop is wrapped in [try ... except Exception as e]. *)
Fixpoint main (chunk_files : list string) (w : World) : Res unit * World :=
  match chunk_files with
  | [] => (Ok tt, w)
  | file_path :: chunk_files' =>
      match process_chunk_file file_path w with
      | (Ok _, w) => main chunk_files' w
      | (Raised e, w) => main chunk_files' (w ++ [failed_to_process file_path e])
      | (OutOfFuel, w) => (OutOfFuel, w)
      end
  end.

End Run.

End Step2.

(** ** chunkify.py *)

Module Chunkify.

(** A CSV row as [csv.reader] yields it. *)
Abbreviation CsvRow := (list string).

Definition SINGLE_QUOTE : ascii := ascii_of_nat 39.
Definition DOUBLE_QUOTE : ascii := ascii_of_nat 34.

(** The cleaning of one cell: [col.strip()], then [.strip(q)] for the
    single quote, then [.strip(q)] for the double quote; an empty cell
    stays empty. *)
Definition clean_cell (col : string) : string :=
  if negb (is_empty col)
  then strip_char DOUBLE_QUOTE (strip_char SINGLE_QUOTE (strip col))
  else EmptyString.

Definition clean_row (row : CsvRow) : CsvRow := map clean_cell row.

(** The files written so far: the closed ones in creation order, and the
    rows of the one that is open. *)
Record Writer := {
  closed : list (list CsvRow);
  outfile : list CsvRow;
  file_count : nat;
  row_count : nat
}.

(** The body of [for row in reader:]. *)
Definition write_data_row (header : CsvRow) (chunk_size : nat)
    (st : Writer) (row : CsvRow) : Writer :=
  let cleaned_row := clean_row row in
  let st :=
    if (chunk_size <=? row_count st)%nat then
      {| closed := closed st ++ [outfile st];
         outfile := [header];
         file_count := file_count st + 1;
         row_count := 0 |}
    else st in
  {| closed := closed st;
     outfile := outfile st ++ [cleaned_row];
     file_count := file_count st;
     row_count := row_count st + 1 |}.

(** [split_csv(input_file, output_prefix, chunk_size)] on the rows of the
    input file: the output files [_part1], [_part2], ... in that order,
    and the count it prints.  [next(reader)] raises on an empty input. *)
Definition split_csv (input : list CsvRow) (chunk_size : nat)
    : Res (list (list CsvRow) * nat) :=
  match input with
  | [] => Raised (Exn StopIteration EmptyString)
  | header :: rows =>
      let st0 := {| closed := []; outfile := [header];
                    file_count := 1; row_count := 0 |} in
      let st := fold_left (write_data_row header chunk_size) rows st0 in
      Ok (closed st ++ [outfile st], file_count st)
  end.

(** [ceil(r / c)] on naturals. *)
Definition ceil_div (r c : nat) : nat := ((r + c - 1) / c)%nat.

(** The rows of an output file below its header. *)
Definition data_rows (file : list CsvRow) : list CsvRow := tail file.

(** What holds of the writer after the rows [done] have been written. *)
Record chunk_inv (header : CsvRow) (chunk_size : nat) (done : list CsvRow)
    (st : Writer) : Prop := {
  inv_closed :
    Forall (fun f => exists d, f = header :: d /\ length d = chunk_size)
           (closed st);
  inv_open :
    exists d, outfile st = header :: d /\ length d = row_count st;
  inv_bound : (row_count st <= chunk_size)%nat;
  inv_rows :
    concat (map data_rows (closed st)) ++ data_rows (outfile st)
    = map clean_row done;
  inv_count : file_count st = S (length (closed st));
  inv_total :
    length done = (chunk_size * length (closed st) + row_count st)%nat;
  inv_nonempty : done <> [] -> (1 <= row_count st)%nat
}.

End Chunkify.

(** ** Sample responses, servers and rows *)

Module Examples.

Definition resp_200 : Response :=
  {| status_code := 200; text := "ok"; errors_message := ProbeValue None |}.
Definition resp_429 : Response :=
  {| status_code := 429; text := "slow down"; errors_message := ProbeValue None |}.
Definition resp_503 : Response :=
  {| status_code := 503; text := "unavailable"; errors_message := ProbeValue None |}.
(** The two special-cased 400 bodies. *)
Definition resp_no_mpid : Response :=
  {| status_code := 400; text := "no such mpid";
     errors_message := ProbeValue (Some Step1.MSG_NO_MPID) |}.
Definition resp_empty_modify : Response :=
  {| status_code := 400; text := "nothing to modify";
     errors_message := ProbeValue (Some Step1.MSG_EMPTY_MODIFY) |}.

Definition connection_error : exn := Exn RequestException "connection refused".
Definition unreadable : exn := Exn OSError "cannot read chunk".

(** A server that answers the POSTs of a run with [l], then with [d]. *)
Definition replay (l : list NetOutcome) (d : NetOutcome) : nat -> NetOutcome :=
  fun n => List.nth n l d.
(** A server that gives every POST the same answer. *)
Definition always (o : NetOutcome) : nat -> NetOutcome := fun _ => o.

Definition modify_both : Step1.Payload :=
  Step1.build_modify_payload (Some "a@b.c") (Some "555") Step1.ENVIRONMENT.

(** Rows of step 1. *)
Definition row_blank_mpid : gmap string (option string) :=
  <[ "External_ID" := Some "  " ]> (<[ "Email_Address" := Some "a@b.c" ]> ∅).
Definition row_no_mpid_column : gmap string (option string) :=
  <[ "Email_Address" := Some "a@b.c" ]> ∅.
Definition row_complete : gmap string (option string) :=
  <[ "External_ID" := Some "42" ]> (<[ "Email_Address" := Some "a@b.c" ]> ∅).
(** The row of the line [a@b.c] under the header
    [Email_Address,External_ID,Phone_Number]: the line has one cell. *)
Definition row_short : gmap string (option string) :=
  <[ "Email_Address" := Some "a@b.c" ]>
    (<[ "External_ID" := None ]> (<[ "Phone_Number" := None ]> ∅)).

(** A row of step 2. *)
Definition row_full : gmap string string :=
  <[ "External_ID" := "42" ]> (<[ "Email_Address" := "a@b.c" ]> ∅).

Definition identity (s : string) : string := s.

(** Two chunk files for step 1: the first cannot be read, the second holds
    one row. *)
Definition chunks1 (path : string)
    : list (gmap string (option string)) * option exn :=
  if String.eqb path "chunk_part1.csv" then ([], Some unreadable)
  else ([row_complete], None).
(** The same files as [read_csv] of step 2 sees them. *)
Definition chunks2 (path : string) : exn + list (gmap string string) :=
  if String.eqb path "chunk_part1.csv" then inl unreadable
  else inr [row_full].

End Examples.

(** ** Observations on strings and traces used to state properties *)

Module Observe.

(** Every character of [s] satisfies [p]. *)
Fixpoint all_chars (p : ascii -> bool) (s : string) : bool :=
  match s with
  | EmptyString => true
  | String c r => p c && all_chars p r
  end.

(** [s] begins, or ends, with a character that satisfies [p]. *)
Definition begins_with (p : ascii -> bool) (s : string) : bool :=
  match s with
  | EmptyString => false
  | String c _ => p c
  end.

Fixpoint ends_with (p : ascii -> bool) (s : string) : bool :=
  match s with
  | EmptyString => false
  | String c EmptyString => p c
  | String _ r => ends_with p r
  end.

(** The characters [clean_cell] can remove: whitespace and the two quotes. *)
Definition is_trimmed (c : ascii) : bool :=
  is_space c || Ascii.eqb c Chunkify.SINGLE_QUOTE
  || Ascii.eqb c Chunkify.DOUBLE_QUOTE.

Definition is_double_quote (c : ascii) : bool :=
  Ascii.eqb c Chunkify.DOUBLE_QUOTE.

(** The effects [retryable_post] is meant to have: POSTs and sleeps. *)
Definition net_only (e : Step1.Event) : bool :=
  match e with
  | Step1.EPost _ _ _ | Step1.ESleep _ => true
  | _ => false
  end.

(** [w'] extends [w] by POSTs and sleeps only. *)
Definition net_extends (w w' : list Step1.Event) : Prop :=
  exists evs, w' = w ++ evs /\ forallb net_only evs = true.

(** The [EWriteSummary] events of a step 1 trace. *)
Definition is_write (e : Step1.Event) : bool :=
  match e with Step1.EWriteSummary _ _ => true | _ => false end.

(** The rows appended to the log file by a step 2 trace, in order. *)
Fixpoint logged (w : list Step2.Event) : list Step2.LogRow :=
  match w with
  | [] => []
  | Step2.EWriteLog rows :: w' => rows ++ logged w'
  | _ :: w' => logged w'
  end.

(** The two identifying cells of a step 2 log row, and of an input row. *)
Definition log_key (l : Step2.LogRow) : option string * option string :=
  (Step2.l_mpid l, Step2.l_email l).
Definition row_key (row : gmap string string) : option string * option string :=
  (row !! Step2.MPID_HEADER, row !! Step2.EMAIL_HEADER).

(** No answer of the server carries one of the two special-cased 400
    bodies. *)
Definition plain (server : nat -> NetOutcome) : Prop :=
  forall n r m,
    server n = Responds r -> status_code r = 400 ->
    errors_message r = ProbeValue m ->
    m <> Some Step1.MSG_NO_MPID /\ m <> Some Step1.MSG_EMPTY_MODIFY.

(** The entry of [identity_changes] for one identifier, if it has a value. *)
Definition change_for (identity_type : string) (value : option string)
    : list Step1.IdentityChange :=
  match value with
  | Some s => [{| Step1.old_value := Some s; Step1.new_value := None;
                  Step1.identity_type := identity_type |}]
  | None => []
  end.

(** A status of the 3xx or 4xx range. *)
Definition resp_404 : Response :=
  {| status_code := 404; text := "not found"; errors_message := ProbeValue None |}.

End Observe.

(** * Properties *)

(** ** The retry loop and the row processor of step 1 *)

Module Step1Facts.
Import Step1 Examples.

Lemma posts_made_app (w1 w2 : World) :
  posts_made (w1 ++ w2) = (posts_made w1 + posts_made w2)%nat.
Proof. unfold posts_made. by rewrite filter_app, length_app. Qed.

Lemma posts_made_post (w : World) url auth p :
  posts_made (w ++ [EPost url auth p]) = S (posts_made w).
Proof. rewrite posts_made_app. change (posts_made [EPost url auth p]) with 1%nat. lia. Qed.

Lemma posts_made_sleep (w : World) ms :
  posts_made (w ++ [ESleep ms]) = posts_made w.
Proof. rewrite posts_made_app. change (posts_made [ESleep ms]) with 0%nat. lia. Qed.

Section Growth.
Variable server : nat -> NetOutcome.

Section Body.
Variable recurse : Payload -> World -> Res PostResult * Payload * World.
Hypothesis recurse_grows : forall p w, w `prefix_of` snd (recurse p w).

Lemma assign_call_grows fr :
  world fr `prefix_of` world (snd (assign_call recurse fr)).
Proof.
  unfold assign_call. pose proof (recurse_grows (json_payload fr) (world fr)) as H.
  destruct (recurse _ _) as [[[[[r a] e]|e|] p] w]; exact H.
Qed.

Lemma for_ident_grows n : forall i fr,
  world fr `prefix_of` world (snd (for_ident recurse n i fr)).
Proof.
  induction n as [|n IH]; intros i fr; cbn [for_ident]; [done|].
  destruct (body_changes (json_payload fr) ≫= _) as [ident|]; [|done].
  set (fr1 := if String.eqb _ _ then _ else fr).
  assert (world fr1 = world fr) as <- by (subst fr1; by destruct (String.eqb _ _)).
  pose proof (assign_call_grows fr1) as H.
  destruct (assign_call recurse fr1) as [[[]|e|] fr2]; cbn [snd] in *; try exact H.
  etrans; [exact H | apply IH].
Qed.

Lemma on_400_grows r fr :
  world fr `prefix_of` world (snd (on_400 recurse r fr)).
Proof.
  unfold on_400. destruct (errors_message r) as [m|e]; [|done].
  destruct (bool_decide (m = Some MSG_NO_MPID)).
  { apply (assign_call_grows (set_payload _ fr)). }
  destruct (bool_decide (m = Some MSG_EMPTY_MODIFY)); [|done].
  destruct (body_changes (json_payload fr)); [apply for_ident_grows | done].
Qed.

Lemma after_branch_world fr :
  world (snd (after_branch fr)) = world fr.
Proof.
  unfold after_branch. destruct (resp fr) as [r|]; [|done].
  by destruct (_ || _).
Qed.

Lemma try_body_grows url auth fr :
  (world fr ++ [EPost url auth (json_payload fr)])
    `prefix_of` world (snd (try_body server recurse url auth fr)).
Proof.
  unfold try_body, requests_post.
  destruct (server _) as [r|e]; [|done].
  destruct (_ && _); [done|].
  set (fr' := set_world _ _).
  assert (world fr' ++ [] = world fr ++ [EPost url auth (json_payload fr)]) as Hw
    by (by rewrite app_nil_r).
  rewrite app_nil_r in Hw. rewrite <- Hw.
  assert (world fr' `prefix_of`
          world (snd (if status_code r =? 400 then on_400 recurse r fr' else (Ok (), fr')))) as H.
  { destruct (status_code r =? 400); [apply on_400_grows | done]. }
  destruct (if status_code r =? 400 then _ else _) as [[[]|e|] fr2]; cbn [snd] in *; try exact H.
  by rewrite after_branch_world.
Qed.
End Body.

Lemma retryable_post_while_grows fuel : forall url auth dry_run backoff fr,
  world fr `prefix_of` snd (retryable_post_while server fuel url auth dry_run backoff fr).
Proof.
  induction fuel as [|fuel IH]; intros url auth dry_run backoff fr;
    cbn [retryable_post_while]; destruct (attempt fr <? MAX_RETRIES)%nat; try done.
  set (recurse := fun (p : Payload) (w : World) => if dry_run then _ else _).
  assert (forall p w, w `prefix_of` snd (recurse p w)) as Hrec.
  { intros p w. subst recurse. cbn beta. destruct dry_run; [done|]. apply (IH _ _ _ _ (init_frame p w)). }
  pose proof (try_body_grows recurse Hrec url auth (set_attempt (S (attempt fr)) fr)) as H.
  assert (world fr `prefix_of` world (snd (try_body server recurse url auth (set_attempt (S (attempt fr)) fr)))) as H'.
  { etrans; [|exact H]. by apply prefix_app_r. }
  destruct (try_body _ _ _ _ _) as [[[r|]|e|] fr']; cbn [snd] in *; try exact H'.
  - etrans; [exact H'|]. etrans; [|apply IH]. by apply prefix_app_r.
  - destruct (is_request_exception e); [|exact H'].
    etrans; [exact H'|]. etrans; [|apply IH]. by apply prefix_app_r.
Qed.

Lemma retryable_post_grows fuel url auth p dry_run w :
  w `prefix_of` snd (retryable_post server fuel url auth p dry_run w).
Proof.
  unfold retryable_post. destruct dry_run; [done|].
  apply (retryable_post_while_grows fuel url auth false INITIAL_BACKOFF (init_frame p w)).
Qed.

Lemma retryable_post_first_post fuel url auth p w :
  (w ++ [EPost url auth p])
    `prefix_of` snd (retryable_post server (S fuel) url auth p false w).
Proof.
  unfold retryable_post. cbn [retryable_post_while init_frame attempt].
  change (0 <? MAX_RETRIES)%nat with true. cbv iota.
  set (recurse := fun (p : Payload) (w : World) => _).
  assert (forall p w, w `prefix_of` snd (recurse p w)) as Hrec.
  { intros p' w'. apply (retryable_post_while_grows _ _ _ _ _ (init_frame p' w')). }
  pose proof (try_body_grows recurse Hrec url auth
                (set_attempt 1 {| resp := None; attempt := 0; last_err := None; json_payload := p; world := w |})) as H.
  cbn [world json_payload set_attempt] in H.
  destruct (try_body _ _ _ _ _) as [[[r|]|e|] fr']; cbn [snd] in *; try exact H.
  - etrans; [exact H|]. etrans; [|apply retryable_post_while_grows]. by apply prefix_app_r.
  - destruct (is_request_exception e); [|exact H].
    etrans; [exact H|]. etrans; [|apply retryable_post_while_grows]. by apply prefix_app_r.
Qed.
End Growth.

(** One pass of the loop of [retryable_post] on a frame whose attempt
    counter is below the limit. *)
Lemma retryable_post_while_step server fuel url auth dry_run backoff fr :
  (attempt fr < MAX_RETRIES)%nat ->
  retryable_post_while server (S fuel) url auth dry_run backoff fr =
    match try_body server
            (fun p w => if dry_run then (Ok (None, 0%nat, None), p, w)
                        else retryable_post_while server fuel url auth dry_run
                               INITIAL_BACKOFF (init_frame p w))
            url auth (set_attempt (S (attempt fr)) fr) with
    | (Ok (FReturn r), fr') => (Ok r, json_payload fr', world fr')
    | (Ok FContinue, fr') =>
        retryable_post_while server fuel url auth dry_run (backoff * 2)
          (sleep backoff fr')
    | (Raised e, fr') =>
        if is_request_exception e then
          retryable_post_while server fuel url auth dry_run (backoff * 2)
            (sleep backoff (set_last_err (Some (exc_text e)) fr'))
        else (Raised e, json_payload fr', world fr')
    | (OutOfFuel, fr') => (OutOfFuel, json_payload fr', world fr')
    end.
Proof.
  intros H. cbn [retryable_post_while].
  apply Nat.ltb_lt in H. by rewrite H.
Qed.

Lemma retryable_post_while_done server fuel url auth dry_run backoff fr :
  (MAX_RETRIES <= attempt fr)%nat ->
  retryable_post_while server fuel url auth dry_run backoff fr =
    (Ok (None, attempt fr, last_err fr), json_payload fr, world fr).
Proof.
  intros H. apply Nat.ltb_ge in H.
  destruct fuel; cbn [retryable_post_while]; by rewrite H.
Qed.

(** The [try] block when [requests.post] raises. *)
Lemma try_body_fails server recurse url auth fr e :
  server (posts_made (world fr)) = Fails e ->
  try_body server recurse url auth fr =
    (Raised e, set_world (world fr ++ [EPost url auth (json_payload fr)]) fr).
Proof. intros H. unfold try_body, requests_post. by rewrite H. Qed.

(** The [try] block on a 2xx response. *)
Lemma try_body_success server recurse url auth fr r :
  server (posts_made (world fr)) = Responds r ->
  200 <= status_code r < 300 ->
  try_body server recurse url auth fr =
    (Ok (FReturn (Some r, attempt fr, None)),
     set_world (world fr ++ [EPost url auth (json_payload fr)])
       (set_resp (Some r) fr)).
Proof.
  intros H [H1 H2]. unfold try_body, requests_post. rewrite H.
  apply Z.leb_le in H1. apply Z.ltb_lt in H2. by rewrite H1, H2.
Qed.

(** The [try] block on a 5xx or 429 response. *)
Lemma try_body_transient server recurse url auth fr r :
  server (posts_made (world fr)) = Responds r ->
  500 <= status_code r \/ status_code r = 429 ->
  try_body server recurse url auth fr =
    (Ok FContinue,
     set_last_err
       (Some ("Status " +:+ str_of_Z (status_code r) +:+ ": " +:+ text r))
       (set_world (world fr ++ [EPost url auth (json_payload fr)])
          (set_resp (Some r) fr))).
Proof.
  intros H Hs. unfold try_body, requests_post. rewrite H.
  assert (((200 <=? status_code r) && (status_code r <? 300)) = false) as ->.
  { apply andb_false_iff. right. apply Z.ltb_ge. lia. }
  assert ((status_code r =? 400) = false) as -> by (apply Z.eqb_neq; lia).
  unfold after_branch. cbn [resp set_world set_resp].
  assert (((500 <=? status_code r) || (status_code r =? 429)) = true) as ->; [|done].
  apply orb_true_iff. destruct Hs as [Hs|Hs]; [left; by apply Z.leb_le | right; by apply Z.eqb_eq].
Qed.

(** The [try] block on a response that is neither 2xx, 5xx, 429 nor one
    of the special-cased 400 bodies. *)
Lemma try_body_terminal server recurse url auth fr r :
  server (posts_made (world fr)) = Responds r ->
  (~ 200 <= status_code r < 300) -> status_code r < 500 -> status_code r <> 429 ->
  (status_code r = 400 ->
     exists m, errors_message r = ProbeValue m
               /\ m <> Some MSG_NO_MPID /\ m <> Some MSG_EMPTY_MODIFY) ->
  let fr' :=
    set_last_err
      (Some ("Status " +:+ str_of_Z (status_code r) +:+ ": " +:+ text r))
      (set_world (world fr ++ [EPost url auth (json_payload fr)])
         (set_resp (Some r) fr)) in
  try_body server recurse url auth fr =
    (Ok (FReturn (Some r, attempt fr, last_err fr')), fr').
Proof.
  intros H H2 H5 H429 H400. cbn zeta. unfold try_body, requests_post. rewrite H.
  assert (((200 <=? status_code r) && (status_code r <? 300)) = false) as ->.
  { apply andb_false_iff.
    destruct (Z.leb_spec 200 (status_code r)); [right; apply Z.ltb_ge; lia | by left]. }
  assert ((if status_code r =? 400
           then on_400 recurse r (set_world (world fr ++ [EPost url auth (json_payload fr)]) (set_resp (Some r) fr))
           else (Ok (), set_world (world fr ++ [EPost url auth (json_payload fr)]) (set_resp (Some r) fr)))
          = (Ok (), set_world (world fr ++ [EPost url auth (json_payload fr)]) (set_resp (Some r) fr))) as ->.
  { destruct (Z.eqb_spec (status_code r) 400) as [E|E]; [|done].
    destruct (H400 E) as (m & Hm & Hn1 & Hn2). unfold on_400. rewrite Hm.
    by rewrite !bool_decide_eq_false_2. }
  unfold after_branch. cbn [resp set_world set_resp].
  assert (((500 <=? status_code r) || (status_code r =? 429)) = false) as ->; [|done].
  apply orb_false_iff. split; [apply Z.leb_gt; lia | by apply Z.eqb_neq].
Qed.

(** A 2xx answer to the first POST is returned at once, with no error
    message. *)
Lemma retryable_post_success_first server fuel url auth p w r :
  server (posts_made w) = Responds r ->
  200 <= status_code r < 300 ->
  retryable_post server (S fuel) url auth p false w =
    (Ok (Some r, 1%nat, None), p, w ++ [EPost url auth p]).
Proof.
  intros H Hs. unfold retryable_post.
  rewrite retryable_post_while_step by (cbn; unfold MAX_RETRIES; lia).
  by rewrite (try_body_success _ _ _ _ _ r).
Qed.

(** An answer to the first POST that is neither 2xx, 5xx, 429 nor one of
    the two special-cased 400 bodies is returned at once, with its status
    and text as error message. *)
Lemma retryable_post_terminal_first server fuel url auth p w r :
  server (posts_made w) = Responds r ->
  (~ 200 <= status_code r < 300) -> status_code r < 500 -> status_code r <> 429 ->
  (status_code r = 400 ->
     exists m, errors_message r = ProbeValue m
               /\ m <> Some MSG_NO_MPID /\ m <> Some MSG_EMPTY_MODIFY) ->
  retryable_post server (S fuel) url auth p false w =
    (Ok (Some r, 1%nat,
         Some ("Status " +:+ str_of_Z (status_code r) +:+ ": " +:+ text r)),
     p, w ++ [EPost url auth p]).
Proof.
  intros H H2 H5 H429 H400. unfold retryable_post.
  rewrite retryable_post_while_step by (cbn; unfold MAX_RETRIES; lia).
  by rewrite (try_body_terminal _ _ _ _ _ r).
Qed.

(** C6: when the first POST is answered with status 429 and the second
    with status 200, [retryable_post] returns that second response with an
    attempt count of exactly 2 and no error message, after two POSTs
    separated by one sleep of the initial backoff. *)
Theorem retry_429_then_200 (server : nat -> NetOutcome) (fuel : nat)
    (url : string) (auth : Auth) (p : Payload) (w : World) (r1 r2 : Response) :
  (2 <= fuel)%nat ->
  server (posts_made w) = Responds r1 -> status_code r1 = 429 ->
  server (S (posts_made w)) = Responds r2 -> status_code r2 = 200 ->
  retryable_post server fuel url auth p false w =
    (Ok (Some r2, 2%nat, None), p,
     w ++ [EPost url auth p; ESleep INITIAL_BACKOFF; EPost url auth p]).
Proof.
  intros Hfuel H1 Hs1 H2 Hs2.
  destruct fuel as [|[|fuel]]; [lia | lia |]. clear Hfuel.
  unfold retryable_post.
  rewrite retryable_post_while_step by (cbn; unfold MAX_RETRIES; lia).
  rewrite (try_body_transient _ _ _ _ _ r1); [| exact H1 | lia].
  rewrite retryable_post_while_step by (cbn; unfold MAX_RETRIES; lia).
  rewrite (try_body_success _ _ _ _ _ r2).
  - cbn. by rewrite <- !app_assoc.
  - cbn [world sleep set_last_err set_world set_resp set_attempt init_frame].
    by rewrite posts_made_sleep, posts_made_post.
  - lia.
Qed.

Lemma retry_429_then_200_witness :
  retryable_post (replay [Responds resp_429; Responds resp_200] (Responds resp_503))
    2 "u" None modify_both false [] =
  (Ok (Some resp_200, 2%nat, None), modify_both,
   [] ++ [EPost "u" None modify_both; ESleep INITIAL_BACKOFF;
          EPost "u" None modify_both]).
Proof.
  apply retry_429_then_200 with (r1 := resp_429);
    [lia | reflexivity | reflexivity | reflexivity | reflexivity].
Defined.

(** C7: when each of the [MAX_RETRIES] = 3 attempts raises a
    [RequestException], [retryable_post] makes exactly three POSTs, sleeps
    1, 2 and 4 seconds after them, and returns no response, the attempt
    count 3 and the text of the last exception as error message. *)
Theorem permanent_network_failure (server : nat -> NetOutcome) (fuel : nat)
    (url : string) (auth : Auth) (p : Payload) (w : World) (e : nat -> exn) :
  (MAX_RETRIES <= fuel)%nat ->
  (forall k, (k < MAX_RETRIES)%nat ->
     server (posts_made w + k)%nat = Fails (e k)
     /\ is_request_exception (e k) = true) ->
  let out := retryable_post server fuel url auth p false w in
  out = (Ok (None, MAX_RETRIES, Some (exc_text (e 2%nat))), p,
         w ++ [EPost url auth p; ESleep 1000; EPost url auth p; ESleep 2000;
               EPost url auth p; ESleep 4000])
  /\ posts_made (snd out) = (posts_made w + MAX_RETRIES)%nat.
Proof.
  intros Hfuel H. unfold MAX_RETRIES in *.
  destruct (H 0%nat) as [H0 E0]; [lia|].
  destruct (H 1%nat) as [H1 E1]; [lia|].
  destruct (H 2%nat) as [H2 E2]; [lia|].
  rewrite Nat.add_0_r in H0.
  destruct fuel as [|[|[|fuel]]]; [lia | lia | lia |]. clear Hfuel H.
  assert (retryable_post server (S (S (S fuel))) url auth p false w =
          (Ok (None, 3%nat, Some (exc_text (e 2%nat))), p,
           w ++ [EPost url auth p; ESleep 1000; EPost url auth p; ESleep 2000;
                 EPost url auth p; ESleep 4000])) as Hout.
  { unfold retryable_post.
    rewrite retryable_post_while_step by (cbn; unfold MAX_RETRIES; lia).
    rewrite (try_body_fails _ _ _ _ _ (e 0%nat)) by exact H0. rewrite E0.
    rewrite retryable_post_while_step by (cbn; unfold MAX_RETRIES; lia).
    rewrite (try_body_fails _ _ _ _ _ (e 1%nat)).
    2:{ cbn [world sleep set_last_err set_world set_attempt init_frame].
        rewrite posts_made_sleep, posts_made_post, <- H1. f_equal. lia. }
    rewrite E1.
    rewrite retryable_post_while_step by (cbn; unfold MAX_RETRIES; lia).
    rewrite (try_body_fails _ _ _ _ _ (e 2%nat)).
    2:{ cbn [world sleep set_last_err set_world set_attempt init_frame].
        rewrite !posts_made_sleep, !posts_made_post, posts_made_sleep, posts_made_post, <- H2.
        f_equal. lia. }
    rewrite E2.
    rewrite retryable_post_while_done by (cbn; unfold MAX_RETRIES; lia).
    cbn. by rewrite <- !app_assoc. }
  cbn zeta. rewrite Hout. split; [done|].
  cbn [snd]. rewrite posts_made_app. 
  change (posts_made [EPost url auth p; ESleep 1000; EPost url auth p; ESleep 2000;
                 EPost url auth p; ESleep 4000]) with 3%nat. lia.
Qed.

Lemma permanent_network_failure_witness :
  let out := retryable_post (always (Fails connection_error)) 3 "u" None
               modify_both false [] in
  out = (Ok (None, MAX_RETRIES, Some (exc_text connection_error)), modify_both,
         [] ++ [EPost "u" None modify_both; ESleep 1000;
                EPost "u" None modify_both; ESleep 2000;
                EPost "u" None modify_both; ESleep 4000])
  /\ posts_made (snd out) = (posts_made [] + MAX_RETRIES)%nat.
Proof.
  apply (permanent_network_failure (always (Fails connection_error)) 3 "u" None
           modify_both [] (fun _ => connection_error));
    [unfold MAX_RETRIES; lia | intros k _; split; reflexivity].
Defined.

(** C1, at the input that breaks it: against a server that answers every
    POST with the 400 body [MpId doesn't exist], [retryable_post] never
    returns.  Whatever bound [fuel] is put on the nesting of calls, the
    run uses it up and has issued [fuel] POSTs by then: the payload is
    resent once per level of nesting, not once. *)
Theorem no_mpid_recursion_unbounded (fuel : nat) :
  forall (url : string) (auth : Auth) (p : Payload) (w : World),
    let out := retryable_post (always (Responds resp_no_mpid)) fuel url auth p false w in
    fst (fst out) = OutOfFuel
    /\ posts_made (snd out) = (posts_made w + fuel)%nat.
Proof.
  unfold retryable_post.
  induction fuel as [|fuel IH]; intros url auth p w; cbn zeta.
  - cbn -[posts_made]. split; [done | lia].
  - specialize (IH url auth (set_environment "development" p) (w ++ [EPost url auth p])).
    cbn zeta in IH. destruct IH as [IH1 IH2].
    rewrite retryable_post_while_step by (cbn; unfold MAX_RETRIES; lia).
    unfold try_body, requests_post, always.
    cbn [json_payload world set_attempt init_frame set_world set_resp].
    change (200 <=? status_code resp_no_mpid) with true.
    change (status_code resp_no_mpid <? 300) with false. cbn [andb].
    change (status_code resp_no_mpid =? 400) with true. cbv iota.
    unfold on_400. cbn [errors_message resp_no_mpid].
    rewrite bool_decide_eq_true_2 by done.
    unfold assign_call. cbn [json_payload world set_payload].
    destruct (retryable_post_while _ fuel url auth false INITIAL_BACKOFF _)
      as [[res p'] w'] eqn:E.
    cbn -[posts_made] in IH1, IH2. subst res. cbn -[posts_made].
    rewrite IH2, posts_made_post. split; [done | lia].
Qed.

(** C2, at the input that breaks it: the first POST is answered with the
    400 body [MpId doesn't exist], the resend with status 200.  The 200
    response is returned, but with the error message [Status 200: ok]
    instead of [None], and with the attempt count of the nested call. *)
Theorem success_after_resend_carries_error :
  retryable_post (replay [Responds resp_no_mpid; Responds resp_200] (Responds resp_200))
    5 "u" None modify_both false [] =
  (Ok (Some resp_200, 1%nat, Some "Status 200: ok"),
   set_environment "development" modify_both,
   [EPost "u" None modify_both;
    EPost "u" None (set_environment "development" modify_both)]).
Proof. vm_compute. reflexivity. Qed.

(** The other special-cased body resends once per entry of
    [identity_changes]: not at all for an empty list, twice for two
    entries. *)
Example empty_modify_no_resend :
  retryable_post (always (Responds resp_empty_modify)) 5 "u" None
    {| environment := ENVIRONMENT; body := ModifyBody [] |} false [] =
  (Ok (Some resp_empty_modify, 1%nat, Some "Status 400: nothing to modify"),
   {| environment := ENVIRONMENT; body := ModifyBody [] |},
   [EPost "u" None {| environment := ENVIRONMENT; body := ModifyBody [] |}]).
Proof. vm_compute. reflexivity. Qed.

Example empty_modify_two_resends :
  posts_made
    (snd (retryable_post
            (replay [Responds resp_empty_modify] (Responds resp_200))
            5 "u" None modify_both false [])) = 3%nat.
Proof. vm_compute. reflexivity. Qed.

(** When the resend runs out of attempts the nested call returns no
    response, and reading its status raises. *)
Example resend_exhausted_raises :
  fst (fst (retryable_post
              (replay [Responds resp_no_mpid] (Responds resp_503))
              5 "u" None modify_both false []))
  = Raised none_has_no_status_code.
Proof. vm_compute. reflexivity. Qed.

(** What a cell reads as, by what the row holds in the column. *)
Lemma blank_cell (row : Row) (header : string) :
  blank_or_absent row header -> cell row header = Ok None.
Proof.
  unfold blank_or_absent, cell, strip_or_none.
  destruct (row !! header) as [[s|]|]; [|done|done].
  intros H. change (default (Some EmptyString) (Some (Some s))) with (Some s).
  cbv beta iota zeta. by rewrite H.
Qed.


Lemma short_cell (row : Row) (header : string) :
  short_of row header -> cell row header = Raised none_has_no_strip.
Proof. unfold short_of, cell. by intros ->. Qed.

Lemma readable_cell (row : Row) (header : string) :
  readable row header ->
  exists v, cell row header = Ok v /\ or_empty v = cell_text row header.
Proof.
  unfold readable, cell, cell_text, strip_or_none.
  destruct (row !! header) as [[s|]|]; [| done |].
  - intros _. change (default (Some EmptyString) (Some (Some s))) with (Some s).
    cbv beta iota zeta. destruct (strip s) eqn:E; by eexists.
  - intros _. by eexists.
Qed.

Lemma cell_outcome (row : Row) (header : string) :
  (exists v, cell row header = Ok v /\ or_empty v = cell_text row header
             /\ readable row header)
  \/ (cell row header = Raised none_has_no_strip /\ short_of row header).
Proof.
  destruct (row !! header) as [[s|]|] eqn:E.
  - left. destruct (readable_cell row header) as (v & Hv & Ht);
      [unfold readable; by rewrite E|].
    exists v. split; [done|]. split; [done|]. unfold readable. by rewrite E.
  - right. split; [by apply short_cell | done].
  - left. destruct (readable_cell row header) as (v & Hv & Ht);
      [unfold readable; by rewrite E|].
    exists v. split; [done|]. split; [done|]. unfold readable. by rewrite E.
Qed.

(** A row whose line was too short for one of the three columns ends the
    loop body with an [AttributeError], before the MPID is looked at and
    in either run mode: no record, no log line, no POST. *)
Lemma short_row_raises (server : nat -> NetOutcome) (fuel : nat)
    (dry_run : bool) (rate_limit : nat) (auth : Auth) (row_num : nat)
    (row : Row) (results : list ResultRecord) (w : World) :
  ~ full_row row ->
  process_row server fuel dry_run rate_limit auth row_num row results w
  = (Raised none_has_no_strip, w).
Proof.
  intros Hshort. unfold process_row.
  destruct (cell_outcome row EMAIL_HEADER) as [(e & -> & _ & He)|[-> _]]; [|done].
  destruct (cell_outcome row MPID_HEADER) as [(m & -> & _ & Hm)|[-> _]]; [|done].
  destruct (cell_outcome row PHONE_HEADER) as [(ph & -> & _ & Hp)|[-> _]]; [|done].
  by destruct Hshort.
Qed.

(** C8, at the input that breaks it: the row of a line that has an email
    cell and nothing after it is a row whose [External_ID] is missing.  The
    loop body raises [AttributeError] when it reads that cell, in either
    run mode: the row gets no [skipped] record and no warning, the trace is
    left as it is, and the exception leaves the loop over the rows. *)
Theorem missing_mpid_cell_raises :
  short_of row_short MPID_HEADER
  /\ (forall server fuel dry_run rate_limit auth row_num results w,
        process_row server fuel dry_run rate_limit auth row_num row_short
          results w
        = (Raised none_has_no_strip, w))
  /\ (forall server fuel dry_run rate_limit auth row_num rows results w,
        process_rows server fuel dry_run rate_limit auth row_num
          (row_short :: rows) results w
        = (Raised none_has_no_strip, w)).
Proof.
  assert (~ full_row row_short) as Hshort.
  { intros (_ & Hm & _). by apply Hm. }
  split; [done|]. split.
  - intros. by apply short_row_raises.
  - intros. cbn [process_rows]. by rewrite short_row_raises.
Qed.

(** Where the three cells can be read, a row whose [External_ID] is blank,
    or whose file has no such column, gets one result record with
    [modify_status] and [events_status] both [skipped], one warning is
    logged, and the row adds no POST to the trace, in either run mode. *)
Lemma blank_mpid_row_skipped (server : nat -> NetOutcome) (fuel : nat)
    (dry_run : bool) (rate_limit : nat) (auth : Auth) (row_num : nat)
    (row : Row) (results : list ResultRecord) (w : World) :
  full_row row ->
  blank_or_absent row MPID_HEADER ->
  let out := process_row server fuel dry_run rate_limit auth row_num row results w in
  out = (Ok (results ++
               [{| r_mpid := EmptyString;
                   r_email := cell_text row EMAIL_HEADER;
                   r_phone := cell_text row PHONE_HEADER;
                   modify_status := "skipped";
                   events_status := "skipped";
                   retries := 0;
                   message := MSG_SKIPPED |}]),
         w ++ [ELog WARNING ("Row " +:+ str_of_nat row_num +:+ ": " +:+ MSG_SKIPPED)])
  /\ filter is_post (snd out) = filter is_post w.
Proof.
  intros (He & _ & Hp) H. cbn zeta. unfold process_row.
  destruct (readable_cell _ _ He) as (e & -> & <-).
  destruct (readable_cell _ _ Hp) as (ph & -> & <-).
  rewrite (blank_cell _ _ H).
  split; [done|]. cbn [snd]. rewrite filter_app. cbn. by rewrite app_nil_r.
Qed.

Example blank_mpid_row_skipped_example :
  fst (process_row (always (Responds resp_200)) 3 false 200 None 1
         row_blank_mpid [] [])
  = Ok [{| r_mpid := EmptyString; r_email := "a@b.c"; r_phone := EmptyString;
           modify_status := "skipped"; events_status := "skipped";
           retries := 0; message := MSG_SKIPPED |}]
  /\ blank_or_absent row_no_mpid_column MPID_HEADER.
Proof. split; [vm_compute; reflexivity | vm_compute; exact I]. Qed.



Lemma no_post_app (w evs : World) :
  filter is_post evs = [] -> filter is_post (w ++ evs) = filter is_post w.
Proof. intros H. by rewrite filter_app, H, app_nil_r. Qed.

Section DryRun.
Variable server : nat -> NetOutcome.
Variables key secret : string.
Variable chunk_file : string -> list Row * option exn.
Variable filestem : string -> string.

Lemma process_row_dry fuel rate auth row_num row results w :
  filter is_post (snd (process_row server fuel true rate auth row_num row results w))
  = filter is_post w.
Proof.
  unfold process_row.
  destruct (cell row EMAIL_HEADER) as [email|e|]; [|done|done].
  destruct (cell row MPID_HEADER) as [mpid|e|]; [|done|done].
  destruct (cell row PHONE_HEADER) as [phone|e|]; [|done|done].
  destruct mpid; cbn [snd]; by apply no_post_app.
Qed.

Lemma process_rows_dry fuel rate auth rows : forall row_num results w,
  filter is_post (snd (process_rows server fuel true rate auth row_num rows results w))
  = filter is_post w.
Proof.
  induction rows as [|row rows IH]; intros row_num results w; cbn [process_rows]; [done|].
  pose proof (process_row_dry fuel rate auth (S row_num) row results w) as H.
  destruct (process_row _ _ _ _ _ _ _ _ _) as [[res|e|] w1]; cbn [snd] in *; try done.
  by rewrite IH.
Qed.

Lemma process_file_dry fuel f rate w :
  filter is_post (snd (process_file server key secret chunk_file filestem fuel f true rate w))
  = filter is_post w.
Proof.
  unfold process_file. destruct (chunk_file f) as [rows err].
  pose proof (process_rows_dry fuel rate (make_auth key secret) rows 0 [] w) as H.
  destruct (process_rows _ _ _ _ _ _ _ _ _) as [[res|e|] w1]; cbn [snd] in *; try done.
  destruct err; cbn [snd]; [done|]. by rewrite no_post_app.
Qed.

Lemma process_files_dry fuel rate files : forall acc w,
  filter is_post (snd (process_files server key secret chunk_file filestem fuel files true rate acc w))
  = filter is_post w.
Proof.
  induction files as [|f files IH]; intros acc w; cbn [process_files]; [done|].
  pose proof (process_file_dry fuel f rate w) as H.
  destruct (process_file _ _ _ _ _ _ _ _ _ _) as [[res|e|] w1]; cbn [snd] in *; try done.
  by rewrite IH.
Qed.

Lemma combine_summaries_no_post files w :
  filter is_post (snd (combine_summaries files w)) = filter is_post w.
Proof.
  unfold combine_summaries. destruct (read_summaries files [] w) as [[|r l]|e|]; cbn [snd]; try done.
  by apply no_post_app.
Qed.

Lemma main_dry fuel files w :
  filter is_post (snd (main_with server key secret chunk_file filestem fuel true files w))
  = filter is_post w.
Proof.
  unfold main_with. destruct files as [|f files]; [by apply no_post_app|].
  pose proof (process_files_dry fuel RATE_LIMIT_DELAY (f :: files) [] w) as H.
  destruct (process_files _ _ _ _ _ _ _ _ _ _ _) as [[res|e|] w1]; cbn [snd] in *; try done.
  by rewrite combine_summaries_no_post.
Qed.
End DryRun.
End Step1Facts.

(** ** The bulk-events sender of step 2 *)

Module Step2Facts.
Import Step2.

Lemma bulk_posts_made_app (w1 w2 : World) :
  posts_made (w1 ++ w2) = (posts_made w1 + posts_made w2)%nat.
Proof. unfold posts_made. by rewrite filter_app, length_app. Qed.

Lemma bulk_no_post_app (w evs : World) :
  filter is_post evs = [] -> filter is_post (w ++ evs) = filter is_post w.
Proof. intros H. by rewrite filter_app, H, app_nil_r. Qed.

Section Run.
Variable server : nat -> NetOutcome.
Variables API_KEY API_SECRET : option string.
Variable read_csv : string -> exn + list Row.

(** A response of any status ends the send on that attempt. *)
Lemma send_attempts_response batch payload retries backoff n attempt w r :
  server (posts_made w) = Responds r ->
  send_attempts server API_KEY API_SECRET batch payload retries backoff (S n) attempt w =
    (Ok (Some (map (log_row (SCode (status_code r))
                      (if status_code r =? 202 then "Success" else text r)) batch)),
     w ++ [EPost BULK_API_URL (API_KEY, API_SECRET) payload]).
Proof. intros H. cbn [send_attempts]. unfold requests_post. by rewrite H. Qed.

(** A [RequestException] before the last attempt: warn, sleep, go on. *)
Lemma send_attempts_retry batch payload retries backoff n attempt w e :
  server (posts_made w) = Fails e -> is_request_exception e = true ->
  (attempt < retries - 1)%nat ->
  send_attempts server API_KEY API_SECRET batch payload retries backoff (S n) attempt w =
    send_attempts server API_KEY API_SECRET batch payload retries backoff n (S attempt)
      (w ++ [EPost BULK_API_URL (API_KEY, API_SECRET) payload;
             ELog WARNING ("Attempt " +:+ str_of_nat (attempt + 1)
                           +:+ " failed: " +:+ exc_text e);
             ESleep (backoff * 2 ^ attempt)]).
Proof.
  intros H He Ha. cbn [send_attempts]. unfold requests_post. rewrite H, He.
  apply Nat.ltb_lt in Ha. rewrite Ha. by rewrite <- !app_assoc.
Qed.

(** A [RequestException] on the last attempt: the rows are marked. *)
Lemma send_attempts_give_up batch payload retries backoff n attempt w e :
  server (posts_made w) = Fails e -> is_request_exception e = true ->
  (retries - 1 <= attempt)%nat ->
  send_attempts server API_KEY API_SECRET batch payload retries backoff (S n) attempt w =
    (Ok (Some (map (log_row (SLabel "Error") (exc_text e)) batch)),
     w ++ [EPost BULK_API_URL (API_KEY, API_SECRET) payload;
           ELog WARNING ("Attempt " +:+ str_of_nat (attempt + 1)
                         +:+ " failed: " +:+ exc_text e);
           ELog ERROR ("Batch failed permanently after " +:+ str_of_nat retries
                       +:+ " attempts: " +:+ exc_text e)]).
Proof.
  intros H He Ha. cbn [send_attempts]. unfold requests_post. rewrite H, He.
  apply Nat.ltb_ge in Ha. rewrite Ha. by rewrite <- !app_assoc.
Qed.

Lemma posts_after_attempt (w : World) payload msg ms :
  posts_made (w ++ [EPost BULK_API_URL (API_KEY, API_SECRET) payload;
                    ELog WARNING msg; ESleep ms]) = S (posts_made w).
Proof.
  rewrite bulk_posts_made_app.
  change (posts_made [EPost BULK_API_URL (API_KEY, API_SECRET) payload;
                      ELog WARNING msg; ESleep ms]) with 1%nat. lia.
Qed.

(** C4, amended: with [DRY_RUN] off, a batch whose POST is answered
    with a response of any status, 5xx and 429 included, is not sent
    again: that one POST is the whole send, there is no sleep, and every
    row of the batch is logged with the status.  Only a
    [RequestException] is retried: after three of them the batch has
    been posted three times, with sleeps of 1 and 2 seconds in between,
    and its rows are logged as [Error] with the last exception text. *)
Theorem bulk_send_retries_exceptions_only (batch : list Row) (w : World) :
  (forall r : Response,
     server (posts_made w) = Responds r ->
     send_batch server false API_KEY API_SECRET batch 3 1000 w =
       (Ok (Some (map (log_row (SCode (status_code r))
                         (if status_code r =? 202 then "Success" else text r))
                      batch)),
        w ++ [the_post API_KEY API_SECRET batch]))
  /\ (forall e : nat -> exn,
        (forall k, (k < 3)%nat ->
           server (posts_made w + k)%nat = Fails (e k)
           /\ is_request_exception (e k) = true) ->
        send_batch server false API_KEY API_SECRET batch 3 1000 w =
          (Ok (Some (map (log_row (SLabel "Error") (exc_text (e 2%nat))) batch)),
           w ++ [the_post API_KEY API_SECRET batch;
                 ELog WARNING ("Attempt 1 failed: " +:+ exc_text (e 0%nat));
                 ESleep 1000;
                 the_post API_KEY API_SECRET batch;
                 ELog WARNING ("Attempt 2 failed: " +:+ exc_text (e 1%nat));
                 ESleep 2000;
                 the_post API_KEY API_SECRET batch;
                 ELog WARNING ("Attempt 3 failed: " +:+ exc_text (e 2%nat));
                 ELog ERROR ("Batch failed permanently after 3 attempts: "
                             +:+ exc_text (e 2%nat))])).
Proof.
  split.
  - intros r H. unfold send_batch. by apply send_attempts_response.
  - intros e H.
    destruct (H 0%nat) as [H0 E0]; [lia|].
    destruct (H 1%nat) as [H1 E1]; [lia|].
    destruct (H 2%nat) as [H2 E2]; [lia|].
    rewrite Nat.add_0_r in H0.
    unfold send_batch.
    rewrite (send_attempts_retry _ _ _ _ _ _ _ (e 0%nat)) by (done || (cbn; lia)).
    rewrite (send_attempts_retry _ _ _ _ _ _ _ (e 1%nat)); [| | done | cbn; lia].
    2:{ rewrite posts_after_attempt, <- H1. f_equal. lia. }
    rewrite (send_attempts_give_up _ _ _ _ _ _ _ (e 2%nat)); [| | done | cbn; lia].
    2:{ rewrite !posts_after_attempt, <- H2. f_equal. lia. }
    rewrite <- !app_assoc. reflexivity.
Qed.

(** The loop of [send_batch] never runs out of fuel: it is bounded by
    [retries]. *)
Lemma send_attempts_total batch payload retries backoff n : forall attempt w,
  fst (send_attempts server API_KEY API_SECRET batch payload retries backoff n attempt w)
  <> OutOfFuel.
Proof.
  induction n as [|n IH]; intros attempt w; cbn [send_attempts]; [done|].
  unfold requests_post. destruct (server _) as [r|e]; [done|].
  destruct (is_request_exception e); [|done].
  destruct (_ <? _)%nat; [apply IH | done].
Qed.

Section Mode.
Variable DRY_RUN : bool.

Lemma send_batch_total batch retries backoff w :
  fst (send_batch server DRY_RUN API_KEY API_SECRET batch retries backoff w) <> OutOfFuel.
Proof.
  unfold send_batch. destruct DRY_RUN; [done|]. apply send_attempts_total.
Qed.

Lemma send_batches_total batches : forall w,
  fst (send_batches server DRY_RUN API_KEY API_SECRET batches w) <> OutOfFuel.
Proof.
  induction batches as [|b bs IH]; intros w; cbn [send_batches]; [done|].
  pose proof (send_batch_total b 3 1000 w) as H.
  destruct (send_batch _ _ _ _ _ _ _ _) as [[logs|e|] w1]; cbn [fst] in *; try done.
  destruct logs as [rows|]; cbn; [apply IH | done].
Qed.

Lemma process_chunk_file_total f w :
  fst (process_chunk_file server DRY_RUN API_KEY API_SECRET read_csv f w) <> OutOfFuel.
Proof.
  unfold process_chunk_file. destruct (read_csv f) as [e|rows]; [done|].
  destruct (chunkify rows BATCH_SIZE) as [e|batches]; [done|].
  apply send_batches_total.
Qed.

(** [main] returns normally whatever happens in a file. *)
Lemma main_returns files : forall w,
  fst (main server DRY_RUN API_KEY API_SECRET read_csv files w) = Ok tt.
Proof.
  induction files as [|f files IH]; intros w; cbn [main]; [done|].
  pose proof (process_chunk_file_total f w) as H.
  destruct (process_chunk_file _ _ _ _ _ _ _) as [[[]|e|] w1]; cbn [fst] in *;
    try done; apply IH.
Qed.

(** The files after a point are processed from the trace the files
    before it leave behind. *)
Lemma main_app files1 files2 : forall w,
  main server DRY_RUN API_KEY API_SECRET read_csv (files1 ++ files2) w =
  main server DRY_RUN API_KEY API_SECRET read_csv files2
    (snd (main server DRY_RUN API_KEY API_SECRET read_csv files1 w)).
Proof.
  induction files1 as [|f files IH]; intros w; cbn [main app]; [done|].
  pose proof (process_chunk_file_total f w) as H.
  destruct (process_chunk_file _ _ _ _ _ _ _) as [[[]|e|] w1]; cbn [fst] in *;
    try done; apply IH.
Qed.
End Mode.

Lemma send_batches_dry batches : forall w,
  filter is_post (snd (send_batches server true API_KEY API_SECRET batches w))
  = filter is_post w.
Proof.
  induction batches as [|b bs IH]; intros w; cbn [send_batches]; [done|].
  unfold send_batch, write_log. cbn [snd]. rewrite IH.
  by rewrite <- app_assoc, bulk_no_post_app.
Qed.

Lemma bulk_process_chunk_file_dry f w :
  filter is_post (snd (process_chunk_file server true API_KEY API_SECRET read_csv f w))
  = filter is_post w.
Proof.
  unfold process_chunk_file. destruct (read_csv f) as [e|rows]; [done|].
  destruct (chunkify rows BATCH_SIZE) as [e|batches]; [done|].
  apply send_batches_dry.
Qed.

Lemma bulk_main_dry files : forall w,
  filter is_post (snd (main server true API_KEY API_SECRET read_csv files w))
  = filter is_post w.
Proof.
  induction files as [|f files IH]; intros w; cbn [main]; [done|].
  pose proof (bulk_process_chunk_file_dry f w) as H.
  destruct (process_chunk_file _ _ _ _ _ _ _) as [[[]|e|] w1]; cbn [snd] in *.
  - by rewrite IH.
  - rewrite IH. by rewrite bulk_no_post_app.
  - done.
Qed.
End Run.

Import Examples.

Lemma bulk_send_retries_exceptions_only_witness :
  send_batch (always (Responds resp_503)) false None None [row_full] 3 1000 [] =
    (Ok (Some (map (log_row (SCode (status_code resp_503))
                      (if status_code resp_503 =? 202 then "Success"
                       else text resp_503)) [row_full])),
     [] ++ [the_post None None [row_full]])
  /\ fst (send_batch (always (Fails connection_error)) false None None
            [row_full] 3 1000 [])
     = Ok (Some (map (log_row (SLabel "Error") (exc_text connection_error))
                     [row_full])).
Proof.
  split.
  - apply (proj1 (bulk_send_retries_exceptions_only
                    (always (Responds resp_503)) None None [row_full] [])).
    reflexivity.
  - rewrite (proj2 (bulk_send_retries_exceptions_only
                      (always (Fails connection_error)) None None [row_full] [])
               (fun _ => connection_error)).
    + reflexivity.
    + intros k _. split; reflexivity.
Defined.

(** The claim as stated fails on a batch whose POST is answered with 503:
    the batch is posted once, never again, and its row is logged with
    status 503. *)
Lemma bulk_503_not_retried :
  send_batch (always (Responds resp_503)) false None None [row_full] 3 1000 [] =
    (Ok (Some [log_row (SCode 503) "unavailable" row_full]),
     [the_post None None [row_full]])
  /\ posts_made
       (snd (send_batch (always (Responds resp_503)) false None None
               [row_full] 3 1000 [])) = 1%nat.
Proof. split; vm_compute; reflexivity. Qed.
End Step2Facts.

(** ** The chunker *)

Module ChunkifyFacts.
Import Chunkify.

Lemma chunk_inv_init header chunk_size :
  chunk_inv header chunk_size []
    {| closed := []; outfile := [header]; file_count := 1; row_count := 0 |}.
Proof.
  split; cbn; try done.
  - by exists [].
  - lia.
  - lia.
Qed.

Lemma chunk_inv_step header chunk_size done st row :
  (0 < chunk_size)%nat ->
  chunk_inv header chunk_size done st ->
  chunk_inv header chunk_size (done ++ [row])
    (write_data_row header chunk_size st row).
Proof.
  intros Hc [Hcl (d & Hd & Hlen) Hb Hrows Hcnt Htot Hne].
  unfold write_data_row.
  destruct (Nat.leb_spec chunk_size (row_count st)) as [Hfull|Hroom]; cbn.
  - assert (row_count st = chunk_size) as Hrc by lia.
    split; cbn.
    + apply Forall_app. split; [done|]. apply Forall_singleton.
      exists d. split; [done | lia].
    + by exists [clean_row row].
    + lia.
    + rewrite map_app, concat_app, map_app. cbn. rewrite app_nil_r.
      by rewrite <- Hrows.
    + rewrite length_app. cbn. lia.
    + rewrite !length_app. cbn. lia.
    + lia.
  - split; cbn.
    + done.
    + exists (d ++ [clean_row row]). rewrite Hd. split; [done|].
      rewrite length_app. cbn. lia.
    + lia.
    + rewrite map_app. cbn. rewrite <- Hrows, Hd. cbn. by rewrite <- app_assoc.
    + done.
    + rewrite length_app. cbn. lia.
    + lia.
Qed.

Lemma chunk_inv_fold header chunk_size rows : forall done st,
  (0 < chunk_size)%nat ->
  chunk_inv header chunk_size done st ->
  chunk_inv header chunk_size (done ++ rows)
    (fold_left (write_data_row header chunk_size) rows st).
Proof.
  induction rows as [|row rows IH]; intros done st Hc Hinv; cbn.
  - by rewrite app_nil_r.
  - replace (done ++ row :: rows) with ((done ++ [row]) ++ rows)
      by (by rewrite <- app_assoc).
    apply IH; [done|]. by apply chunk_inv_step.
Qed.

Lemma ceil_div_exact (c k rc : nat) :
  (0 < c)%nat -> (1 <= rc <= c)%nat -> ceil_div (c * k + rc) c = S k.
Proof.
  intros Hc Hrc. unfold ceil_div.
  replace (c * k + rc + c - 1)%nat with (rc - 1 + (S k) * c)%nat by lia.
  rewrite Nat.div_add by lia. rewrite Nat.div_small by lia. lia.
Qed.

Lemma ceil_div_zero (c : nat) : (0 < c)%nat -> ceil_div 0 c = 0%nat.
Proof. intros Hc. unfold ceil_div. apply Nat.div_small. lia. Qed.

(** C3, amended: for a header, [R] data rows and a chunk size [C > 0],
    [split_csv] writes [max 1 (ceil (R / C))] files and reports that
    count; every file is the header followed by at most [C] data rows; and
    the data rows of the files, read in file order, are the input rows in
    their order, each cell cleaned by [clean_cell], so every input row is
    in exactly one file. *)
Theorem split_csv_chunks (header : CsvRow) (rows : list CsvRow) (chunk_size : nat) :
  (0 < chunk_size)%nat ->
  exists files : list (list CsvRow),
    split_csv (header :: rows) chunk_size = Ok (files, length files)
    /\ length files = Nat.max 1 (ceil_div (length rows) chunk_size)
    /\ Forall (fun f => exists d, f = header :: d /\ (length d <= chunk_size)%nat) files
    /\ concat (map data_rows files) = map clean_row rows.
Proof.
  intros Hc.
  pose proof (chunk_inv_fold header chunk_size rows [] _ Hc
                (chunk_inv_init header chunk_size)) as Hinv.
  cbn [app] in Hinv. unfold split_csv.
  set (st := fold_left _ rows _) in *.
  destruct Hinv as [Hcl (d & Hd & Hlen) Hb Hrows Hcnt Htot Hne].
  exists (closed st ++ [outfile st]).
  assert (length (closed st ++ [outfile st]) = S (length (closed st))) as Hfiles
    by (rewrite length_app; cbn; lia).
  repeat split.
  - by rewrite Hfiles, Hcnt.
  - rewrite Hfiles. destruct rows as [|row rows'].
    + change (length (@nil CsvRow)) with 0%nat in Htot.
      assert (length (closed st) = 0)%nat as -> by nia.
      rewrite ceil_div_zero by done. done.
    + rewrite Htot, ceil_div_exact; [lia | done |].
      split; [by apply Hne | done].
  - apply Forall_app. split.
    + eapply Forall_impl; [exact Hcl|]. intros f (d' & -> & Hd'). exists d'. split; [done | lia].
    + apply Forall_singleton. exists d. split; [done | lia].
  - rewrite map_app, concat_app. cbn. by rewrite app_nil_r.
Qed.

Lemma split_csv_chunks_witness :
  exists files : list (list CsvRow),
    split_csv (["id"; "email"] :: [["1"; " 'a@b.c' "]; ["2"; "c@d.e"]; ["3"; EmptyString]]) 2
      = Ok (files, length files)
    /\ length files = Nat.max 1 (ceil_div (length [["1"; " 'a@b.c' "]; ["2"; "c@d.e"]; ["3"; EmptyString]]) 2)
    /\ Forall (fun f => exists d, f = ["id"; "email"] :: d /\ (length d <= 2)%nat) files
    /\ concat (map data_rows files)
       = map clean_row [["1"; " 'a@b.c' "]; ["2"; "c@d.e"]; ["3"; EmptyString]].
Proof. apply split_csv_chunks. lia. Defined.

(** The three strips are applied once, in this order: quotes inside the
    outer whitespace go, whitespace inside the quotes stays. *)
Example clean_cell_quoted : clean_cell " 'a@b.c' " = "a@b.c".
Proof. reflexivity. Qed.

Example clean_cell_inner_space : clean_cell "' a '" = " a ".
Proof. reflexivity. Qed.

(** The claim as stated fails on an input with a header and no data
    row: one file is written, and [ceil (0 / 1)] is 0. *)
Lemma header_only_one_file :
  split_csv [["id"; "email"]] 1 = Ok ([[["id"; "email"]]], 1%nat)
  /\ length [[["id"; "email"]]] <> ceil_div 0 1.
Proof. split; [reflexivity | vm_compute; lia]. Qed.
End ChunkifyFacts.

(** ** The two drivers *)

Module DriverFacts.
Import Examples.

(** In step 1 a file that raises ends the loop over the files. *)
Lemma process_files_stop server key secret chunk_file filestem fuel dry_run
    rate done : forall f rest acc0 acc w w1 e w2,
  Step1.process_files server key secret chunk_file filestem fuel done dry_run
    rate acc0 w = (Ok acc, w1) ->
  Step1.process_file server key secret chunk_file filestem fuel f dry_run
    rate w1 = (Raised e, w2) ->
  Step1.process_files server key secret chunk_file filestem fuel
    (done ++ f :: rest) dry_run rate acc0 w = (Raised e, w2).
Proof.
  induction done as [|g done IH]; intros f rest acc0 acc w w1 e w2 Hdone Hf.
  - cbn in Hdone. injection Hdone as <- <-.
    cbn [app Step1.process_files]. by rewrite Hf.
  - cbn [app Step1.process_files] in *.
    destruct (Step1.process_file _ _ _ _ _ _ g _ _ _) as [[sp|e'|] w'];
      try discriminate.
    by apply (IH f rest _ acc w' w1 e w2).
Qed.

(** C5, amended: the bulk-events driver (step 2) catches an exception
    raised while a file is processed, logs it and goes on with the next
    file, so its [main] always returns; the child-profiles driver (step 1)
    has no handler: an exception raised while a file is processed leaves
    [main] at that point, and the files after it are not processed. *)
Theorem file_failure_handling :
  (forall server DRY_RUN key secret read_csv files w,
     fst (Step2.main server DRY_RUN key secret read_csv files w) = Ok tt)
  /\ (forall server DRY_RUN key secret read_csv f rest w e w',
        Step2.process_chunk_file server DRY_RUN key secret read_csv f w
          = (Raised e, w') ->
        Step2.main server DRY_RUN key secret read_csv (f :: rest) w =
          Step2.main server DRY_RUN key secret read_csv rest
            (w' ++ [Step2.failed_to_process f e]))
  /\ (forall server key secret chunk_file filestem fuel dry_run
             done f rest acc w w1 e w2,
        Step1.process_files server key secret chunk_file filestem fuel done
          dry_run Step1.RATE_LIMIT_DELAY [] w = (Ok acc, w1) ->
        Step1.process_file server key secret chunk_file filestem fuel f
          dry_run Step1.RATE_LIMIT_DELAY w1 = (Raised e, w2) ->
        Step1.main_with server key secret chunk_file filestem fuel dry_run
          (done ++ f :: rest) w = (Raised e, w2)).
Proof.
  split; [|split].
  - intros. apply Step2Facts.main_returns.
  - intros server DRY_RUN key secret read_csv f rest w e w' H.
    cbn [Step2.main]. by rewrite H.
  - intros server key secret chunk_file filestem fuel dry_run
           done f rest acc w w1 e w2 Hdone Hf.
    unfold Step1.main_with.
    rewrite (process_files_stop _ _ _ _ _ _ _ _ _ f rest [] acc w w1 e w2 Hdone Hf).
    by destruct done.
Qed.

Lemma file_failure_handling_witness :
  fst (Step2.main (always (Responds resp_200)) false None None chunks2
         ["chunk_part1.csv"; "chunk_part2.csv"] []) = Ok tt
  /\ Step2.main (always (Responds resp_200)) false None None chunks2
       ("chunk_part1.csv" :: ["chunk_part2.csv"]) [] =
     Step2.main (always (Responds resp_200)) false None None chunks2
       ["chunk_part2.csv"]
       ([] ++ [Step2.failed_to_process "chunk_part1.csv" unreadable])
  /\ Step1.main_with (always (Responds resp_200)) "key" "secret" chunks1
       identity 5 false ([] ++ "chunk_part1.csv" :: ["chunk_part2.csv"]) []
     = (Raised unreadable, []).
Proof.
  destruct file_failure_handling as (Hreturns & Hnext & Hstop).
  split; [|split].
  - apply Hreturns.
  - apply Hnext. reflexivity.
  - apply (Hstop _ _ _ _ _ _ _ [] _ _ [] [] []); reflexivity.
Defined.

(** The claim as stated fails in step 1: with a first chunk file that
    cannot be read and a second one that can, the run ends with the
    exception of the first and nothing of the second file is processed,
    although that file on its own produces effects. *)
Lemma step1_run_stops_at_failed_file :
  Step1.main (always (Responds resp_200)) "key" "secret" chunks1 identity 5
    ["chunk_part1.csv"; "chunk_part2.csv"] [] = (Raised unreadable, [])
  /\ snd (Step1.main (always (Responds resp_200)) "key" "secret" chunks1
            identity 5 ["chunk_part2.csv"] []) <> [].
Proof. split; [vm_compute; reflexivity | vm_compute; discriminate]. Qed.

(** C9: in dry-run mode no POST is issued, whatever the files, rows and
    batches are and whatever the server would answer: [retryable_post]
    with its flag set returns at once and leaves the trace as it is, and
    a run of either driver with the flag set adds no POST to the trace. *)
Theorem dry_run_issues_no_post :
  (forall server fuel url auth p w,
     Step1.retryable_post server fuel url auth p true w
     = (Ok (None, 0%nat, None), p, w))
  /\ (forall server key secret chunk_file filestem fuel files w,
        filter Step1.is_post
          (snd (Step1.main_with server key secret chunk_file filestem fuel
                  true files w))
        = filter Step1.is_post w)
  /\ (forall server key secret batch retries backoff w,
        snd (Step2.send_batch server true key secret batch retries backoff w) = w)
  /\ (forall server key secret read_csv files w,
        filter Step2.is_post
          (snd (Step2.main server true key secret read_csv files w))
        = filter Step2.is_post w).
Proof.
  repeat split.
  - intros. apply Step1Facts.main_dry.
  - intros. apply Step2Facts.bulk_main_dry.
Qed.

End DriverFacts.

(** ** Stripping and cell cleaning *)

Module StripFacts.
Import Observe.

Lemma append_nil (b : string) : EmptyString +:+ b = b.
Proof. reflexivity. Qed.

Lemma append_cons (x : ascii) (a b : string) :
  String x a +:+ b = String x (a +:+ b).
Proof. reflexivity. Qed.

Lemma append_assoc (a b c : string) : (a +:+ b) +:+ c = a +:+ (b +:+ c).
Proof.
  induction a as [|x a IH]; [done|]. rewrite !append_cons. by rewrite IH.
Qed.

Lemma append_empty_r (a : string) : a +:+ EmptyString = a.
Proof.
  induction a as [|x a IH]; [done|]. rewrite append_cons. by rewrite IH.
Qed.

Lemma all_chars_append p (a b : string) :
  all_chars p (a +:+ b) = all_chars p a && all_chars p b.
Proof.
  induction a as [|x a IH]; [done|]. rewrite append_cons. cbn [all_chars].
  rewrite IH. by rewrite andb_assoc.
Qed.

Lemma all_chars_weaken (p q : ascii -> bool) (s : string) :
  (forall c, p c = true -> q c = true) -> all_chars p s = true -> all_chars q s = true.
Proof.
  intros Hpq. induction s as [|c s IH]; cbn; [done|].
  intros [Hc Hs]%andb_true_iff. rewrite (Hpq _ Hc). by apply IH.
Qed.

(** What [lstrip_by] removes is a run of characters of the set. *)
Lemma lstrip_by_split p (s : string) :
  exists a, s = a +:+ lstrip_by p s /\ all_chars p a = true.
Proof.
  induction s as [|c s (a & Ha & Hp)]; cbn.
  - by exists EmptyString.
  - destruct (p c) eqn:Hc.
    + exists (String c a). rewrite append_cons. cbn [all_chars].
      rewrite Hc, Hp. by rewrite <- Ha.
    + by exists EmptyString.
Qed.

Lemma rstrip_by_split p (s : string) :
  exists b, s = rstrip_by p s +:+ b /\ all_chars p b = true.
Proof.
  induction s as [|c s (b & Hb & Hp)]; cbn.
  - by exists EmptyString.
  - destruct (p c && is_empty (rstrip_by p s)) eqn:Hc.
    + apply andb_true_iff in Hc as [Hc He].
      destruct (rstrip_by p s); [|done]. rewrite append_nil in Hb. subst s.
      exists (String c b). rewrite append_nil. cbn [all_chars]. by rewrite Hc, Hp.
    + exists b. rewrite append_cons. by rewrite <- Hb.
Qed.

Lemma lstrip_by_begins p (s : string) : begins_with p (lstrip_by p s) = false.
Proof.
  induction s as [|c s IH]; cbn; [done|].
  destruct (p c) eqn:Hc; [done|]. cbn. done.
Qed.

Lemma rstrip_by_ends p (s : string) : ends_with p (rstrip_by p s) = false.
Proof.
  induction s as [|c s IH]; cbn [rstrip_by]; [done|].
  destruct (p c && is_empty (rstrip_by p s)) eqn:Hc; [done|].
  destruct (rstrip_by p s) as [|d r] eqn:Hr.
  - cbn in *. by rewrite andb_true_r in Hc.
  - exact IH.
Qed.

Lemma rstrip_by_begins p (s : string) :
  begins_with p s = false -> begins_with p (rstrip_by p s) = false.
Proof.
  destruct s as [|c s]; cbn; [done|]. intros Hc. rewrite Hc. cbn. exact Hc.
Qed.

Lemma lstrip_by_fixed p (s : string) :
  begins_with p s = false -> lstrip_by p s = s.
Proof. destruct s as [|c s]; cbn; [done|]. by intros ->. Qed.

Lemma rstrip_by_idem p (s : string) :
  rstrip_by p (rstrip_by p s) = rstrip_by p s.
Proof.
  induction s as [|c s IH]; cbn [rstrip_by]; [done|].
  destruct (p c && is_empty (rstrip_by p s)) eqn:Hc; [done|].
  cbn [rstrip_by]. by rewrite IH, Hc.
Qed.

Lemma strip_by_idem p (s : string) : strip_by p (strip_by p s) = strip_by p s.
Proof.
  unfold strip_by.
  rewrite (lstrip_by_fixed p (rstrip_by p (lstrip_by p s))).
  - apply rstrip_by_idem.
  - apply rstrip_by_begins, lstrip_by_begins.
Qed.

Lemma strip_by_split p (s : string) :
  exists a b, s = a +:+ strip_by p s +:+ b
              /\ all_chars p a = true /\ all_chars p b = true.
Proof.
  destruct (lstrip_by_split p s) as (a & Ha & Hpa).
  destruct (rstrip_by_split p (lstrip_by p s)) as (b & Hb & Hpb).
  exists a, b. unfold strip_by. rewrite <- append_assoc.
  rewrite append_assoc. by rewrite <- Hb, <- Ha.
Qed.

(** [strip] characterised: it removes characters of the set only, from the
    two ends only, and leaves none of them at either end. *)
Lemma strip_by_spec (p : ascii -> bool) (s : string) :
  (exists a b, s = a +:+ strip_by p s +:+ b
               /\ all_chars p a = true /\ all_chars p b = true)
  /\ begins_with p (strip_by p s) = false
  /\ ends_with p (strip_by p s) = false.
Proof.
  split; [apply strip_by_split | split].
  - apply rstrip_by_begins, lstrip_by_begins.
  - apply rstrip_by_ends.
Qed.

(** X21: [clean_cell] only trims: the cell is its cleaned form between two
    runs of whitespace and quote characters, so the inside of a cell is
    never changed, and the cleaned form neither begins nor ends with a
    double quote. *)
Theorem clean_cell_trims (col : string) :
  (exists a b, col = a +:+ Chunkify.clean_cell col +:+ b
               /\ all_chars is_trimmed a = true /\ all_chars is_trimmed b = true)
  /\ begins_with is_double_quote (Chunkify.clean_cell col) = false
  /\ ends_with is_double_quote (Chunkify.clean_cell col) = false.
Proof.
  unfold Chunkify.clean_cell. destruct col as [|c col]; cbn [negb is_empty].
  { split; [|done]. by exists EmptyString, EmptyString. }
  set (s := String c col). unfold strip, strip_char.
  split; [|split].
  - destruct (strip_by_split is_space s) as (a1 & b1 & H1 & Ha1 & Hb1).
    set (s1 := strip_by is_space s) in *.
    destruct (strip_by_split (fun x => Ascii.eqb x Chunkify.SINGLE_QUOTE) s1)
      as (a2 & b2 & H2 & Ha2 & Hb2).
    set (s2 := strip_by _ s1) in *.
    destruct (strip_by_split (fun x => Ascii.eqb x Chunkify.DOUBLE_QUOTE) s2)
      as (a3 & b3 & H3 & Ha3 & Hb3).
    set (s3 := strip_by _ s2) in *.
    assert (forall t, all_chars is_space t = true -> all_chars is_trimmed t = true)
      as Hw1.
    { intros t. apply all_chars_weaken. intros x Hx. unfold is_trimmed. by rewrite Hx. }
    assert (forall t, all_chars (fun x => Ascii.eqb x Chunkify.SINGLE_QUOTE) t = true ->
                      all_chars is_trimmed t = true) as Hw2.
    { intros t. apply all_chars_weaken. intros x Hx. unfold is_trimmed.
      rewrite Hx. by rewrite orb_true_r. }
    assert (forall t, all_chars (fun x => Ascii.eqb x Chunkify.DOUBLE_QUOTE) t = true ->
                      all_chars is_trimmed t = true) as Hw3.
    { intros t. apply all_chars_weaken. intros x Hx. unfold is_trimmed.
      rewrite Hx. by rewrite orb_true_r. }
    exists (a1 +:+ a2 +:+ a3), (b3 +:+ b2 +:+ b1). split; [|split].
    + rewrite H1 at 1. rewrite H2 at 1. rewrite H3 at 1.
      by rewrite !append_assoc.
    + rewrite !all_chars_append.
      by rewrite (Hw1 _ Ha1), (Hw2 _ Ha2), (Hw3 _ Ha3).
    + rewrite !all_chars_append.
      by rewrite (Hw1 _ Hb1), (Hw2 _ Hb2), (Hw3 _ Hb3).
  - apply rstrip_by_begins, lstrip_by_begins.
  - apply rstrip_by_ends.
Qed.

End StripFacts.

(** ** More on the retry loop of step 1 *)

Module RetryFacts.
Import Step1 Step1Facts Examples Observe.

(** X1: a 2xx answer to the first POST ends the call at once: that response
    is returned with attempt count 1 and no error message, after one POST and
    no sleep, and the payload is as it was. *)
Theorem first_success_returned (server : nat -> NetOutcome) (fuel : nat)
    (url : string) (auth : Auth) (p : Payload) (w : World) (r : Response) :
  (0 < fuel)%nat ->
  server (posts_made w) = Responds r ->
  200 <= status_code r < 300 ->
  retryable_post server fuel url auth p false w =
    (Ok (Some r, 1%nat, None), p, w ++ [EPost url auth p]).
Proof.
  intros Hfuel H Hs. destruct fuel as [|fuel]; [lia|].
  unfold retryable_post.
  rewrite retryable_post_while_step by (cbn; unfold MAX_RETRIES; lia).
  by rewrite (try_body_success _ _ _ _ _ r).
Qed.

Lemma first_success_returned_witness :
  retryable_post (always (Responds resp_200)) 1 "u" None modify_both false [] =
    (Ok (Some resp_200, 1%nat, None), modify_both,
     [] ++ [EPost "u" None modify_both]).
Proof.
  apply first_success_returned; [lia | reflexivity | cbn; lia].
Defined.

(** X2: an answer to the first POST is final when its status is neither
    2xx, 5xx nor 429 and, if the status is 400, the message of its body can
    be read and is not one of the two special-cased ones: it is returned on
    that attempt with its status and text as error message, after one POST
    and no sleep.  (A 400 whose body cannot be read raises inside the [try]
    block instead: see [unreadable_400_is_retried].) *)
Theorem terminal_failure_returned (server : nat -> NetOutcome) (fuel : nat)
    (url : string) (auth : Auth) (p : Payload) (w : World) (r : Response) :
  (0 < fuel)%nat ->
  server (posts_made w) = Responds r ->
  (~ 200 <= status_code r < 300) -> status_code r < 500 -> status_code r <> 429 ->
  (status_code r = 400 ->
     exists m, errors_message r = ProbeValue m
               /\ m <> Some MSG_NO_MPID /\ m <> Some MSG_EMPTY_MODIFY) ->
  retryable_post server fuel url auth p false w =
    (Ok (Some r, 1%nat,
         Some ("Status " +:+ str_of_Z (status_code r) +:+ ": " +:+ text r)),
     p, w ++ [EPost url auth p]).
Proof.
  intros Hfuel H H2 H5 H429 H400. destruct fuel as [|fuel]; [lia|].
  unfold retryable_post.
  rewrite retryable_post_while_step by (cbn; unfold MAX_RETRIES; lia).
  by rewrite (try_body_terminal _ _ _ _ _ r).
Qed.

(** A 400 answer whose body is not JSON makes [resp.json()] raise; where
    that exception is a [RequestException] it is caught like a network
    error, so the call tries three times and returns no response. *)
Example unreadable_400_is_retried :
  retryable_post
    (always (Responds {| status_code := 400; text := "<html>";
                         errors_message :=
                           ProbeRaises (Exn RequestException "not JSON") |}))
    3 "u" None modify_both false [] =
  (Ok (None, 3%nat, Some "not JSON"), modify_both,
   [EPost "u" None modify_both; ESleep 1000; EPost "u" None modify_both;
    ESleep 2000; EPost "u" None modify_both; ESleep 4000]).
Proof. vm_compute. reflexivity. Qed.

Lemma terminal_failure_returned_witness :
  retryable_post (always (Responds resp_404)) 1 "u" None modify_both false [] =
    (Ok (Some resp_404, 1%nat,
         Some ("Status " +:+ str_of_Z (status_code resp_404) +:+ ": "
               +:+ text resp_404)),
     modify_both, [] ++ [EPost "u" None modify_both]).
Proof.
  apply terminal_failure_returned;
    [lia | reflexivity | cbn; lia | cbn; lia | cbn; lia | cbn; lia].
Defined.

(** X3: when each of the three POSTs is answered with a 5xx or 429 status,
    the call sleeps 1, 2 and 4 seconds after them (also after the last) and
    returns no response at all: the attempt count 3 and the status and text
    of the last answer as error message. *)
Theorem persistent_server_error (server : nat -> NetOutcome) (fuel : nat)
    (url : string) (auth : Auth) (p : Payload) (w : World) (r : nat -> Response) :
  (MAX_RETRIES <= fuel)%nat ->
  (forall k, (k < MAX_RETRIES)%nat ->
     server (posts_made w + k)%nat = Responds (r k)
     /\ (500 <= status_code (r k) \/ status_code (r k) = 429)) ->
  retryable_post server fuel url auth p false w =
    (Ok (None, MAX_RETRIES,
         Some ("Status " +:+ str_of_Z (status_code (r 2%nat)) +:+ ": "
               +:+ text (r 2%nat))),
     p,
     w ++ [EPost url auth p; ESleep 1000; EPost url auth p; ESleep 2000;
           EPost url auth p; ESleep 4000]).
Proof.
  intros Hfuel H. unfold MAX_RETRIES in *.
  destruct (H 0%nat) as [H0 E0]; [lia|].
  destruct (H 1%nat) as [H1 E1]; [lia|].
  destruct (H 2%nat) as [H2 E2]; [lia|].
  rewrite Nat.add_0_r in H0.
  destruct fuel as [|[|[|fuel]]]; [lia | lia | lia |]. clear Hfuel H.
  unfold retryable_post.
  rewrite retryable_post_while_step by (cbn; unfold MAX_RETRIES; lia).
  rewrite (try_body_transient _ _ _ _ _ (r 0%nat)); [| exact H0 | exact E0].
  rewrite retryable_post_while_step by (cbn; unfold MAX_RETRIES; lia).
  rewrite (try_body_transient _ _ _ _ _ (r 1%nat)); [| | exact E1].
  2:{ cbn [world sleep set_last_err set_world set_resp set_attempt init_frame].
      rewrite posts_made_sleep, posts_made_post, <- H1. f_equal. lia. }
  rewrite retryable_post_while_step by (cbn; unfold MAX_RETRIES; lia).
  rewrite (try_body_transient _ _ _ _ _ (r 2%nat)); [| | exact E2].
  2:{ cbn [world sleep set_last_err set_world set_resp set_attempt init_frame].
      rewrite !posts_made_sleep, !posts_made_post, posts_made_sleep,
        posts_made_post, <- H2. f_equal. lia. }
  rewrite retryable_post_while_done by (cbn; unfold MAX_RETRIES; lia).
  cbn. by rewrite <- !app_assoc.
Qed.

Lemma persistent_server_error_witness :
  retryable_post (always (Responds resp_503)) 3 "u" None modify_both false [] =
    (Ok (None, MAX_RETRIES,
         Some ("Status " +:+ str_of_Z (status_code resp_503) +:+ ": "
               +:+ text resp_503)),
     modify_both,
     [] ++ [EPost "u" None modify_both; ESleep 1000; EPost "u" None modify_both;
            ESleep 2000; EPost "u" None modify_both; ESleep 4000]).
Proof.
  apply (persistent_server_error (always (Responds resp_503)) 3 "u" None
           modify_both [] (fun _ => resp_503));
    [unfold MAX_RETRIES; lia | intros k _; split; [reflexivity | left; cbn; lia]].
Defined.

(** What a returned response looks like, whatever the nested call does. *)
Lemma try_body_return server recurse url auth fr r a err fr' :
  try_body server recurse url auth fr = (Ok (FReturn (Some r, a, err)), fr') ->
  status_code r < 500 /\ status_code r <> 429
  /\ (err = None -> 200 <= status_code r < 300).
Proof.
  unfold try_body, requests_post.
  destruct (server _) as [r0|e]; [|done].
  destruct ((200 <=? status_code r0) && (status_code r0 <? 300)) eqn:H2xx.
  - intros [= <- <- <- <-]. apply andb_true_iff in H2xx as [H1 H2].
    apply Z.leb_le in H1. apply Z.ltb_lt in H2. lia.
  - destruct (if status_code r0 =? 400 then _ else _) as [[[]|e|] fr2]; try done.
    unfold after_branch. destruct (resp fr2) as [r2|]; [|done].
    destruct ((500 <=? status_code r2) || (status_code r2 =? 429)) eqn:Hre; [done|].
    intros [= <- <- <- <-]. apply orb_false_iff in Hre as [H5 H429].
    apply Z.leb_gt in H5. apply Z.eqb_neq in H429. done.
Qed.

Lemma retryable_post_while_return server fuel : forall url auth dry_run backoff fr r a err p w,
  retryable_post_while server fuel url auth dry_run backoff fr
    = (Ok (Some r, a, err), p, w) ->
  status_code r < 500 /\ status_code r <> 429
  /\ (err = None -> 200 <= status_code r < 300).
Proof.
  induction fuel as [|fuel IH]; intros url auth dry_run backoff fr r a err p w;
    cbn [retryable_post_while]; destruct (attempt fr <? MAX_RETRIES)%nat; try done.
  destruct (try_body _ _ _ _ _) as [[[r1|]|e|] fr'] eqn:Htry.
  - intros H. injection H as Hr Hp Hw. subst r1. by eapply try_body_return.
  - apply IH.
  - destruct (is_request_exception e); [apply IH | done].
  - done.
Qed.

(** X5: whatever the server does, a response that [retryable_post] returns
    is never a retryable one (its status is below 500 and not 429), and when
    it comes with no error message its status is 2xx. *)
Theorem returned_response_is_final (server : nat -> NetOutcome) (fuel : nat)
    (url : string) (auth : Auth) (p : Payload) (w : World) :
  match fst (fst (retryable_post server fuel url auth p false w)) with
  | Ok (Some r, _, err) =>
      status_code r < 500 /\ status_code r <> 429
      /\ (err = None -> 200 <= status_code r < 300)
  | _ => True
  end.
Proof.
  unfold retryable_post.
  destruct (retryable_post_while _ _ _ _ _ _ _) as [[res p'] w'] eqn:E. cbn.
  destruct res as [[[[r|] a] err]|e|]; try done.
  by eapply retryable_post_while_return.
Qed.

(** Against a plain server the [try] block makes its POST and nothing else:
    no nested call, no change to the payload. *)
Lemma try_body_plain server recurse url auth fr :
  plain server ->
  exists res fr',
    try_body server recurse url auth fr = (res, fr')
    /\ res <> OutOfFuel
    /\ json_payload fr' = json_payload fr
    /\ world fr' = world fr ++ [EPost url auth (json_payload fr)]
    /\ attempt fr' = attempt fr
    /\ (forall x a e, res = Ok (FReturn (x, a, e)) -> a = attempt fr).
Proof.
  intros Hplain. unfold try_body, requests_post.
  destruct (server (posts_made (world fr))) as [r|e] eqn:Hs.
  2:{ eexists _, _. split; [done|]. repeat split; try done. }
  destruct ((200 <=? status_code r) && (status_code r <? 300)).
  { eexists _, _. split; [done|]. repeat split; try done.
    by intros x a e [= <- <- <-]. }
  set (fr1 := set_world _ _).
  assert (exists res1,
             (if status_code r =? 400 then on_400 recurse r fr1 else (Ok (), fr1))
             = (res1, fr1) /\ res1 <> OutOfFuel) as (res1 & -> & Hres1).
  { destruct (Z.eqb_spec (status_code r) 400) as [E|E]; [|by exists (Ok ())].
    unfold on_400. destruct (errors_message r) as [m|e] eqn:Hm.
    - destruct (Hplain _ _ _ Hs E Hm) as [Hn1 Hn2].
      rewrite !bool_decide_eq_false_2 by done. by exists (Ok ()).
    - by exists (Raised e). }
  destruct res1 as [[]|e|]; [| |done].
  - unfold after_branch. cbn [resp fr1 set_world set_resp].
    destruct ((500 <=? status_code r) || (status_code r =? 429)).
    + eexists _, _. split; [done|]. repeat split; try done.
    + eexists _, _. split; [done|]. repeat split; try done.
      by intros x a e [= <- <- <-].
  - eexists _, _. split; [done|]. repeat split; try done.
Qed.

Lemma retryable_post_while_plain server :
  plain server ->
  forall k fuel url auth dry_run backoff fr,
    (MAX_RETRIES <= attempt fr + k)%nat -> (k <= fuel)%nat ->
    let out := retryable_post_while server fuel url auth dry_run backoff fr in
    fst (fst out) <> OutOfFuel
    /\ snd (fst out) = json_payload fr
    /\ (posts_made (snd out) <= posts_made (world fr) + k)%nat
    /\ ((attempt fr <= MAX_RETRIES)%nat ->
        match fst (fst out) with
        | Ok (_, a, _) => (a <= MAX_RETRIES)%nat
        | _ => True
        end).
Proof.
  intros Hplain. induction k as [|k IH]; intros fuel url auth dry_run backoff fr Ha Hk.
  { rewrite retryable_post_while_done by lia. cbn -[posts_made]. repeat split; [done | lia | done]. }
  destruct (Nat.lt_ge_cases (attempt fr) MAX_RETRIES) as [Hlt|Hge].
  2:{ rewrite retryable_post_while_done by lia. cbn -[posts_made].
      repeat split; [done | lia | done]. }
  destruct fuel as [|fuel]; [lia|].
  rewrite retryable_post_while_step by done.
  destruct (try_body_plain server
              (fun p w => if dry_run then (Ok (None, 0%nat, None), p, w)
                          else retryable_post_while server fuel url auth dry_run
                                 INITIAL_BACKOFF (init_frame p w))
              url auth (set_attempt (S (attempt fr)) fr) Hplain)
    as (res & fr' & -> & Hres & Hp & Hw & Hat & Hret).
  cbn [json_payload world attempt set_attempt] in Hp, Hw, Hat, Hret.
  assert (posts_made (world fr') = S (posts_made (world fr))) as Hposts
    by (by rewrite Hw, posts_made_post).
  destruct res as [[[[x a] e]|]|e|]; [| | |done].
  - cbn -[posts_made]. rewrite (Hret x a e eq_refl).
    repeat split; [done | done | lia | intros _; lia].
  - specialize (IH fuel url auth dry_run (backoff * 2)%nat (sleep backoff fr')).
    cbn [attempt sleep set_world json_payload world] in IH.
    rewrite posts_made_sleep, Hposts, Hat, Hp in IH.
    destruct IH as (I1 & I2 & I3 & I4); [lia | lia |].
    cbn zeta. repeat split; [done | done | lia | intros _; apply I4; lia].
  - destruct (is_request_exception e).
    + specialize (IH fuel url auth dry_run (backoff * 2)%nat
                    (sleep backoff (set_last_err (Some (exc_text e)) fr'))).
      cbn [attempt sleep set_world set_last_err json_payload world] in IH.
      rewrite posts_made_sleep, Hposts, Hat, Hp in IH.
      destruct IH as (I1 & I2 & I3 & I4); [lia | lia |].
      cbn zeta. repeat split; [done | done | lia | intros _; apply I4; lia].
    + cbn -[posts_made]. repeat split; [done | done | lia].
Qed.

(** X4: against a server that never answers with one of the two
    special-cased 400 bodies the call returns or raises within [MAX_RETRIES]
    loop iterations: it issues at most three POSTs, reports at most three
    attempts and leaves the payload as it was. *)
Theorem plain_call_is_bounded (server : nat -> NetOutcome) (fuel : nat)
    (url : string) (auth : Auth) (p : Payload) (w : World) :
  plain server ->
  (MAX_RETRIES <= fuel)%nat ->
  let out := retryable_post server fuel url auth p false w in
  fst (fst out) <> OutOfFuel
  /\ snd (fst out) = p
  /\ (posts_made (snd out) <= posts_made w + MAX_RETRIES)%nat
  /\ match fst (fst out) with
     | Ok (_, a, _) => (a <= MAX_RETRIES)%nat
     | _ => True
     end.
Proof.
  intros Hplain Hfuel. unfold retryable_post.
  destruct (retryable_post_while_plain server Hplain MAX_RETRIES fuel url auth
              false INITIAL_BACKOFF (init_frame p w)) as (H1 & H2 & H3 & H4);
    [cbn; lia | done |].
  cbn zeta. repeat split; [done | done | done |].
  apply H4. cbn. unfold MAX_RETRIES. lia.
Qed.

Lemma plain_always_503 : plain (always (Responds resp_503)).
Proof. intros n r m [= <-] Hs. cbn in Hs. lia. Qed.

Lemma plain_call_is_bounded_witness :
  let out := retryable_post (always (Responds resp_503)) 3 "u" None
               modify_both false [] in
  fst (fst out) <> OutOfFuel
  /\ snd (fst out) = modify_both
  /\ (posts_made (snd out) <= posts_made [] + MAX_RETRIES)%nat
  /\ match fst (fst out) with
     | Ok (_, a, _) => (a <= MAX_RETRIES)%nat
     | _ => True
     end.
Proof.
  apply plain_call_is_bounded; [exact plain_always_503 | unfold MAX_RETRIES; lia].
Defined.

(** X6: after a 400 answer with the body [MpId doesn't exist] to the first
    POST, the next effect is a second POST to the same URL of the same
    payload with its environment set to [development]. *)
Theorem no_mpid_resent_to_development (server : nat -> NetOutcome) (fuel : nat)
    (url : string) (auth : Auth) (p : Payload) (w : World) (r : Response) :
  (2 <= fuel)%nat ->
  server (posts_made w) = Responds r ->
  status_code r = 400 ->
  errors_message r = ProbeValue (Some MSG_NO_MPID) ->
  (w ++ [EPost url auth p; EPost url auth (set_environment "development" p)])
    `prefix_of` snd (retryable_post server fuel url auth p false w).
Proof.
  intros Hfuel Hs H400 Hm. destruct fuel as [|[|fuel]]; [lia | lia |].
  unfold retryable_post.
  rewrite retryable_post_while_step by (cbn; unfold MAX_RETRIES; lia).
  unfold try_body at 1, requests_post.
  cbn [json_payload world set_attempt init_frame]. rewrite Hs.
  rewrite H400. change ((200 <=? 400) && (400 <? 300)) with false.
  change (400 =? 400) with true. cbv iota. unfold on_400. rewrite Hm.
  rewrite bool_decide_eq_true_2 by done.
  unfold assign_call. cbn [json_payload world set_payload set_world set_resp].
  pose proof (retryable_post_first_post server fuel url auth
                (set_environment "development" p) (w ++ [EPost url auth p])) as H1.
  unfold retryable_post in H1. rewrite <- app_assoc in H1. cbn [app] in H1.
  destruct (retryable_post_while server (S fuel) url auth false INITIAL_BACKOFF _)
    as [[res p'] w'].
  cbn [snd] in H1.
  destruct res as [[[r' a'] e']|e'|]; cbn [snd world].
  - unfold after_branch. cbn [resp]. destruct r' as [r'|]; [|exact H1].
    cbn [set_last_err world json_payload attempt last_err resp].
    destruct ((500 <=? status_code r') || (status_code r' =? 429)); [|exact H1].
    etrans; [exact H1|]. etrans; [|apply retryable_post_while_grows].
    by apply prefix_app_r.
  - destruct (is_request_exception e'); [|exact H1].
    etrans; [exact H1|]. etrans; [|apply retryable_post_while_grows].
    by apply prefix_app_r.
  - exact H1.
Qed.

Lemma no_mpid_resent_to_development_witness :
  ([] ++ [EPost "u" None modify_both;
          EPost "u" None (set_environment "development" modify_both)])
    `prefix_of` snd (retryable_post
                       (replay [Responds resp_no_mpid] (Responds resp_200))
                       2 "u" None modify_both false []).
Proof.
  apply no_mpid_resent_to_development with (r := resp_no_mpid);
    [lia | reflexivity | reflexivity | reflexivity].
Defined.

End RetryFacts.

(** ** Payloads, rows and files of step 1 *)

Module RowFacts.
Import Step1 Step1Facts Examples Observe.

Lemma strip_idem (s : string) : strip (strip s) = strip s.
Proof. apply StripFacts.strip_by_idem. Qed.

Lemma is_empty_eq (s : string) : is_empty s = true <-> s = EmptyString.
Proof. by destruct s. Qed.

Lemma normalize_blank_some (s : string) :
  s <> EmptyString -> strip s = s -> normalize_blank (Some s) = Some s.
Proof.
  intros Hne Hs. unfold normalize_blank. rewrite Hs.
  destruct s; [done|]. done.
Qed.

Lemma build_modify_payload_eq (email phone : option string) (environment : string) :
  build_modify_payload email phone environment =
    {| Step1.environment := environment;
       body := ModifyBody (change_for "email" (normalize_blank email)
                           ++ change_for "mobile_number" (normalize_blank phone)) |}.
Proof.
  unfold build_modify_payload.
  by destruct (normalize_blank email), (normalize_blank phone).
Qed.

(** X8: the modify payload carries the given environment and one change
    per identifier that is not blank, the email before the mobile number;
    every change has [new_value] [None] and a non-empty [old_value] without
    surrounding whitespace.  The early return for two blank identifiers
    gives the same payload as the general path. *)
Theorem build_modify_payload_changes (email phone : option string)
    (environment : string) :
  build_modify_payload email phone environment =
    {| Step1.environment := environment;
       body := ModifyBody (change_for "email" (normalize_blank email)
                           ++ change_for "mobile_number" (normalize_blank phone)) |}
  /\ Forall (fun c => new_value c = None
                      /\ exists s, old_value c = Some s /\ s <> EmptyString
                                   /\ strip s = s)
            (change_for "email" (normalize_blank email)
             ++ change_for "mobile_number" (normalize_blank phone)).
Proof.
  assert (forall ty x,
            Forall (fun c => new_value c = None
                      /\ exists s, old_value c = Some s /\ s <> EmptyString
                                   /\ strip s = s)
                   (change_for ty (normalize_blank x))) as Hone.
  { intros ty [s|]; cbn; [|done].
    destruct (negb (is_empty s) && negb (is_empty (strip s))) eqn:E; cbn; [|done].
    apply Forall_singleton. split; [done|]. exists (strip s).
    apply andb_true_iff in E as [_ E]. split; [done|]. split.
    - intros H. by rewrite H in E.
    - apply strip_idem. }
  split.
  - apply build_modify_payload_eq.
  - apply Forall_app. split; apply Hone.
Qed.

(** X9: a cell read from a row either raises, exactly on the [None] of a
    line that was too short, or returns: [None], and then the column is
    blank or absent, or a non-empty string without surrounding whitespace;
    so the normalisation in [build_modify_payload] changes nothing on a
    cell that was read, and the payload of a row carries its email and
    phone cells as they go into the result record. *)
Theorem cell_is_normalized (row : Row) (header : string) :
  match cell row header with
  | Ok (Some s) => s <> EmptyString /\ strip s = s
  | Ok None => blank_or_absent row header
  | Raised e => e = none_has_no_strip /\ short_of row header
  | OutOfFuel => False
  end
  /\ (forall v, cell row header = Ok v -> normalize_blank v = v)
  /\ (forall email phone,
        cell row EMAIL_HEADER = Ok email -> cell row PHONE_HEADER = Ok phone ->
        build_modify_payload email phone ENVIRONMENT =
          {| environment := ENVIRONMENT;
             body := ModifyBody (change_for "email" email
                                 ++ change_for "mobile_number" phone) |}).
Proof.
  assert (forall h, match cell row h with
                    | Ok (Some s) => s <> EmptyString /\ strip s = s
                    | Ok None => blank_or_absent row h
                    | Raised e => e = none_has_no_strip /\ short_of row h
                    | OutOfFuel => False
                    end) as Hcell.
  { intros h. unfold cell, blank_or_absent, short_of, strip_or_none.
    destruct (row !! h) as [[s|]|]; [| done | done].
    change (default (Some EmptyString) (Some (Some s))) with (Some s).
    cbv beta iota zeta. destruct (is_empty (strip s)) eqn:E.
    - by apply is_empty_eq.
    - split; [|apply strip_idem]. intros H. by rewrite H in E. }
  assert (forall h v, cell row h = Ok v -> normalize_blank v = v) as Hnorm.
  { intros h v Hv. specialize (Hcell h). rewrite Hv in Hcell.
    destruct v as [s|]; [|done]. destruct Hcell. by apply normalize_blank_some. }
  split; [apply Hcell | split; [apply Hnorm|]].
  intros email phone He Hp. rewrite build_modify_payload_eq.
  by rewrite (Hnorm _ _ He), (Hnorm _ _ Hp).
Qed.

(** How a status of the 2xx, 3xx or 4xx range prints. *)
Lemma digits_2xx :
  forallb (fun k => startswith "2" (str_of_Z (200 + Z.of_nat k))) (seq 0 100) = true.
Proof. vm_compute. reflexivity. Qed.

Lemma digits_3xx_4xx :
  forallb (fun k => negb (startswith "2" (str_of_Z (300 + Z.of_nat k)))) (seq 0 200)
  = true.
Proof. vm_compute. reflexivity. Qed.

Lemma status_2xx_text (s : Z) :
  200 <= s < 300 -> startswith "2" (str_of_Z s) = true.
Proof.
  intros Hs.
  pose proof (proj1 (forallb_forall _ _) digits_2xx (Z.to_nat (s - 200))) as H.
  cbv beta in H. rewrite Z2Nat.id in H by lia.
  replace (200 + (s - 200)) with s in H by lia.
  apply H. apply in_seq. lia.
Qed.

Lemma status_3xx_4xx_text (s : Z) :
  300 <= s < 500 -> startswith "2" (str_of_Z s) = false.
Proof.
  intros Hs.
  pose proof (proj1 (forallb_forall _ _) digits_3xx_4xx (Z.to_nat (s - 300))) as H.
  cbv beta in H. rewrite Z2Nat.id in H by lia.
  replace (300 + (s - 300)) with s in H by lia.
  apply negb_true_iff, H. apply in_seq. lia.
Qed.

(** Every way through [process_row] that returns appends one record. *)
Lemma process_row_appends server fuel dry_run rate auth row_num row results w :
  match fst (process_row server fuel dry_run rate auth row_num row results w) with
  | Ok results' => exists rec, results' = results ++ [rec]
  | _ => True
  end.
Proof.
  unfold process_row.
  destruct (cell row EMAIL_HEADER) as [email|e|]; [|done|done].
  destruct (cell row MPID_HEADER) as [mpid|e|]; [|done|done].
  destruct (cell row PHONE_HEADER) as [phone|e|]; [|done|done].
  destruct mpid as [mpid|]; [|by eexists].
  destruct dry_run; [by eexists|].
  destruct (retryable_post server fuel _ auth _ false w)
    as [[[[[r a] e]|e|] p1] w1]; [|done|done].
  destruct (startswith "2" (status_text r)); [|by eexists].
  destruct (retryable_post server fuel EVENTS_BASE_URL auth _ false w1)
    as [[[[[r2 a2] e2]|e2|] p2] w2]; [|done|done].
  by eexists.
Qed.

Lemma process_rows_appends server fuel dry_run rate_limit auth rows :
  forall (row_num : nat) (results : list ResultRecord) (w : World),
    match fst (process_rows server fuel dry_run rate_limit auth row_num rows
                 results w) with
    | Ok results' =>
        exists added, results' = results ++ added /\ length added = length rows
    | _ => True
    end.
Proof.
  induction rows as [|row rows IH]; intros row_num results w; cbn [process_rows].
  - exists []. by rewrite app_nil_r.
  - pose proof (process_row_appends server fuel dry_run rate_limit auth
                  (S row_num) row results w) as H.
    destruct (process_row _ _ _ _ _ _ _ _ _) as [[res|e|] w1]; cbn [fst] in *;
      [|done|done].
    destruct H as (rec & ->).
    specialize (IH (S row_num) (results ++ [rec]) w1).
    destruct (fst (process_rows _ _ _ _ _ _ _ _ _)) as [res'|e|]; [|done|done].
    destruct IH as (added & -> & Hlen).
    exists (rec :: added). rewrite <- app_assoc. cbn. by rewrite Hlen.
Qed.

(** X10: when the row loop comes to its end it has appended exactly one
    result record per input row, after the records it started with. *)
Theorem one_record_per_row (server : nat -> NetOutcome) (fuel : nat)
    (dry_run : bool) (rate_limit : nat) (auth : Auth) (rows : list Row)
    (row_num : nat) (results : list ResultRecord) (w : World) :
  match fst (process_rows server fuel dry_run rate_limit auth row_num rows
               results w) with
  | Ok results' =>
      exists added, results' = results ++ added /\ length added = length rows
  | _ => True
  end.
Proof. apply process_rows_appends. Qed.

(** X11: in dry-run mode, on rows whose three cells can be read, the row
    loop always comes to its end, and every record it appends has [retries]
    0 and is either [dry-run] / [dry-run] with an empty message or
    [skipped] / [skipped]. *)
Theorem dry_run_rows_fabricated (server : nat -> NetOutcome) (fuel : nat)
    (rate_limit : nat) (auth : Auth) (rows : list Row) :
  Forall full_row rows ->
  forall (row_num : nat) (results : list ResultRecord) (w : World),
    exists added w',
      process_rows server fuel true rate_limit auth row_num rows results w
        = (Ok (results ++ added), w')
      /\ length added = length rows
      /\ Forall (fun r =>
                   retries r = 0%nat
                   /\ ((modify_status r = "dry-run" /\ events_status r = "dry-run"
                        /\ message r = EmptyString)
                       \/ (modify_status r = "skipped"
                           /\ events_status r = "skipped"))) added.
Proof.
  induction rows as [|row rows IH]; intros Hfull row_num results w;
    cbn [process_rows].
  - exists [], w. by rewrite app_nil_r.
  - apply Forall_cons in Hfull as [(He & Hm & Hp) Hrest].
    specialize (IH Hrest (S row_num)).
    unfold process_row.
    destruct (readable_cell _ _ He) as (e & -> & _).
    destruct (readable_cell _ _ Hm) as (m & -> & _).
    destruct (readable_cell _ _ Hp) as (ph & -> & _).
    destruct m as [mpid|].
    + destruct (IH (results ++ [{| r_mpid := mpid;
                                   r_email := or_empty e;
                                   r_phone := or_empty ph;
                                   modify_status := "dry-run";
                                   events_status := "dry-run";
                                   retries := 0 + 0;
                                   message := or_empty (por None None) |}])
                  (w ++ [ESleep rate_limit])) as (added & w' & Heq & Hlen & Hall).
      eexists (_ :: added), w'. rewrite Heq, <- app_assoc. split; [done|].
      split; [cbn; by rewrite Hlen|].
      apply Forall_cons. split; [|done]. cbn. split; [done|]. by left.
    + destruct (IH (results ++ [{| r_mpid := EmptyString;
                                   r_email := or_empty e;
                                   r_phone := or_empty ph;
                                   modify_status := "skipped";
                                   events_status := "skipped";
                                   retries := 0;
                                   message := MSG_SKIPPED |}])
                  (w ++ [ELog WARNING ("Row " +:+ str_of_nat (S row_num) +:+ ": "
                                       +:+ MSG_SKIPPED)]))
        as (added & w' & Heq & Hlen & Hall).
      eexists (_ :: added), w'. rewrite Heq, <- app_assoc. split; [done|].
      split; [cbn; by rewrite Hlen|].
      apply Forall_cons. split; [|done]. cbn. split; [done|]. by right.
Qed.

Lemma full_row_complete : full_row row_complete.
Proof. repeat split; vm_compute; intros H; discriminate H. Qed.

Lemma full_row_blank_mpid : full_row row_blank_mpid.
Proof. repeat split; vm_compute; intros H; discriminate H. Qed.

Lemma dry_run_rows_fabricated_witness :
  exists added w',
    process_rows (always (Responds resp_200)) 3 true 200 None 0
      [row_complete; row_blank_mpid] [] []
      = (Ok ([] ++ added), w')
    /\ length added = length [row_complete; row_blank_mpid]
    /\ Forall (fun r =>
                 retries r = 0%nat
                 /\ ((modify_status r = "dry-run" /\ events_status r = "dry-run"
                      /\ message r = EmptyString)
                     \/ (modify_status r = "skipped"
                         /\ events_status r = "skipped"))) added.
Proof.
  refine (dry_run_rows_fabricated (always (Responds resp_200)) 3 200 None
            [row_complete; row_blank_mpid] _ 0 [] []).
  apply Forall_cons. split; [exact full_row_complete|].
  apply Forall_cons. split; [exact full_row_blank_mpid|].
  by apply Forall_nil.
Defined.

(** X12: in a live run, for a row whose three cells can be read and whose
    MPID is not blank: when the modify POST is answered with a status from
    300 to 499 other than 429 and, if that status is 400, the message of
    the body can be read and is not one of the two special-cased ones, no
    events POST is made.  The row costs one POST and the pacing sleep, and
    its record has the status as [modify_status], [skipped_modify_failed]
    as [events_status], [retries] 1 and the status and text as message. *)
Theorem modify_refused_skips_events (server : nat -> NetOutcome) (fuel : nat)
    (rate_limit : nat) (auth : Auth) (row_num : nat) (row : Row)
    (results : list ResultRecord) (w : World) (r : Response)
    (email phone : option string) (mpid : string) :
  (0 < fuel)%nat ->
  cell row EMAIL_HEADER = Ok email ->
  cell row MPID_HEADER = Ok (Some mpid) ->
  cell row PHONE_HEADER = Ok phone ->
  server (posts_made w) = Responds r ->
  300 <= status_code r < 500 -> status_code r <> 429 ->
  (status_code r = 400 ->
     exists m, errors_message r = ProbeValue m
               /\ m <> Some MSG_NO_MPID /\ m <> Some MSG_EMPTY_MODIFY) ->
  let err := "Status " +:+ str_of_Z (status_code r) +:+ ": " +:+ text r in
  process_row server fuel false rate_limit auth row_num row results w =
    (Ok (results ++
           [{| r_mpid := mpid;
               r_email := or_empty email;
               r_phone := or_empty phone;
               modify_status := str_of_Z (status_code r);
               events_status := "skipped_modify_failed";
               retries := 1;
               message := err |}]),
     w ++ [EPost (IDENTITY_BASE_URL +:+ "/" +:+ mpid +:+ "/modify") auth
             (build_modify_payload email phone ENVIRONMENT);
           ESleep rate_limit]).
Proof.
  intros Hfuel He Hm Hp Hs Hr H429 H400. cbn zeta.
  destruct fuel as [|fuel]; [lia|].
  unfold process_row. rewrite He, Hm, Hp.
  rewrite (retryable_post_terminal_first _ _ _ _ _ _ r) by (done || lia).
  cbn [status_text]. rewrite (status_3xx_4xx_text _ Hr).
  rewrite <- app_assoc. done.
Qed.

Lemma modify_refused_skips_events_witness :
  let err := "Status " +:+ str_of_Z (status_code resp_404) +:+ ": "
             +:+ text resp_404 in
  process_row (always (Responds resp_404)) 1 false 200 None 1 row_complete [] [] =
    (Ok ([] ++
           [{| r_mpid := "42";
               r_email := or_empty (Some "a@b.c");
               r_phone := or_empty None;
               modify_status := str_of_Z (status_code resp_404);
               events_status := "skipped_modify_failed";
               retries := 1;
               message := err |}]),
     [] ++ [EPost (IDENTITY_BASE_URL +:+ "/" +:+ "42" +:+ "/modify") None
              (build_modify_payload (Some "a@b.c") None ENVIRONMENT);
            ESleep 200]).
Proof.
  apply (modify_refused_skips_events (always (Responds resp_404)) 1 200 None 1
           row_complete [] [] resp_404 (Some "a@b.c") None "42").
  - lia.
  - reflexivity.
  - reflexivity.
  - reflexivity.
  - reflexivity.
  - cbn. lia.
  - cbn. lia.
  - cbn. lia.
Defined.

(** X13: in a live run, for a row whose three cells can be read and whose
    MPID is not blank: when the modify POST and then the events POST are
    both answered with a 2xx status, the row makes exactly these two POSTs
    in this order, then the pacing sleep, and its record has the two
    statuses, [retries] 2 and an empty message. *)
Theorem modify_then_events (server : nat -> NetOutcome) (fuel : nat)
    (rate_limit : nat) (auth : Auth) (row_num : nat) (row : Row)
    (results : list ResultRecord) (w : World) (r1 r2 : Response)
    (email phone : option string) (mpid : string) :
  (0 < fuel)%nat ->
  cell row EMAIL_HEADER = Ok email ->
  cell row MPID_HEADER = Ok (Some mpid) ->
  cell row PHONE_HEADER = Ok phone ->
  server (posts_made w) = Responds r1 -> 200 <= status_code r1 < 300 ->
  server (S (posts_made w)) = Responds r2 -> 200 <= status_code r2 < 300 ->
  process_row server fuel false rate_limit auth row_num row results w =
    (Ok (results ++
           [{| r_mpid := mpid;
               r_email := or_empty email;
               r_phone := or_empty phone;
               modify_status := str_of_Z (status_code r1);
               events_status := str_of_Z (status_code r2);
               retries := 2;
               message := EmptyString |}]),
     w ++ [EPost (IDENTITY_BASE_URL +:+ "/" +:+ mpid +:+ "/modify") auth
             (build_modify_payload email phone ENVIRONMENT);
           EPost EVENTS_BASE_URL auth (build_events_payload mpid);
           ESleep rate_limit]).
Proof.
  intros Hfuel He Hm Hp Hs1 Hr1 Hs2 Hr2. destruct fuel as [|fuel]; [lia|].
  unfold process_row. rewrite He, Hm, Hp.
  rewrite (retryable_post_success_first _ _ _ _ _ _ r1) by done.
  cbn [status_text]. rewrite (status_2xx_text _ Hr1).
  rewrite (retryable_post_success_first _ _ _ _ _ _ r2).
  - rewrite <- !app_assoc. done.
  - by rewrite posts_made_post.
  - done.
Qed.

Lemma modify_then_events_witness :
  process_row (always (Responds resp_200)) 1 false 200 None 1 row_complete [] [] =
    (Ok ([] ++
           [{| r_mpid := "42";
               r_email := or_empty (Some "a@b.c");
               r_phone := or_empty None;
               modify_status := str_of_Z (status_code resp_200);
               events_status := str_of_Z (status_code resp_200);
               retries := 2;
               message := EmptyString |}]),
     [] ++ [EPost (IDENTITY_BASE_URL +:+ "/" +:+ "42" +:+ "/modify") None
              (build_modify_payload (Some "a@b.c") None ENVIRONMENT);
            EPost EVENTS_BASE_URL None (build_events_payload "42");
            ESleep 200]).
Proof.
  apply (modify_then_events (always (Responds resp_200)) 1 200 None 1
           row_complete [] [] resp_200 resp_200 (Some "a@b.c") None "42").
  - lia.
  - reflexivity.
  - reflexivity.
  - reflexivity.
  - reflexivity.
  - cbn. lia.
  - reflexivity.
  - cbn. lia.
Defined.

(** The row loop and the file loop only add to the trace. *)
Lemma process_row_grows server fuel dry_run rate auth row_num row results w :
  w `prefix_of` snd (process_row server fuel dry_run rate auth row_num row results w).
Proof.
  unfold process_row.
  destruct (cell row EMAIL_HEADER) as [email|e|]; [|done|done].
  destruct (cell row MPID_HEADER) as [mpid|e|]; [|done|done].
  destruct (cell row PHONE_HEADER) as [phone|e|]; [|done|done].
  destruct mpid as [mpid|]; [|by apply prefix_app_r].
  destruct dry_run; [by apply prefix_app_r|].
  pose proof (retryable_post_grows server fuel
                (IDENTITY_BASE_URL +:+ "/" +:+ mpid +:+ "/modify") auth
                (build_modify_payload email phone ENVIRONMENT) false w) as H1.
  destruct (retryable_post server fuel _ auth _ false w)
    as [[[[[r a] e]|e|] p1] w1]; cbn [snd] in *; try exact H1.
  destruct (startswith "2" (status_text r)).
  - pose proof (retryable_post_grows server fuel EVENTS_BASE_URL auth
                  (build_events_payload mpid) false w1) as H2.
    destruct (retryable_post server fuel EVENTS_BASE_URL auth _ false w1)
      as [[[[[r2 a2] e2]|e2|] p2] w2]; cbn [snd] in *.
    + etrans; [exact H1|]. etrans; [exact H2|]. by apply prefix_app_r.
    + by etrans.
    + by etrans.
  - cbn [snd]. etrans; [exact H1|]. by apply prefix_app_r.
Qed.

Lemma process_rows_grows server fuel dry_run rate auth rows :
  forall row_num results w,
    w `prefix_of`
      snd (process_rows server fuel dry_run rate auth row_num rows results w).
Proof.
  induction rows as [|row rows IH]; intros row_num results w; cbn [process_rows];
    [done|].
  pose proof (process_row_grows server fuel dry_run rate auth (S row_num) row
                results w) as H.
  destruct (process_row _ _ _ _ _ _ _ _ _) as [[res|e|] w1]; cbn [snd] in *;
    try exact H.
  etrans; [exact H | apply IH].
Qed.

Lemma process_file_grows server key secret chunk_file filestem fuel f dry_run
    rate w :
  w `prefix_of`
    snd (process_file server key secret chunk_file filestem fuel f dry_run rate w).
Proof.
  unfold process_file. destruct (chunk_file f) as [rows err].
  pose proof (process_rows_grows server fuel dry_run rate (make_auth key secret)
                rows 0 [] w) as H.
  destruct (process_rows _ _ _ _ _ _ _ _ _) as [[res|e|] w1]; cbn [snd] in *;
    try exact H.
  destruct err; cbn [snd]; [exact H|].
  etrans; [exact H|]. by apply prefix_app_r.
Qed.

Lemma process_files_grows server key secret chunk_file filestem fuel dry_run
    rate files : forall acc w,
  w `prefix_of`
    snd (process_files server key secret chunk_file filestem fuel files dry_run
           rate acc w).
Proof.
  induction files as [|f files IH]; intros acc w; cbn [process_files]; [done|].
  pose proof (process_file_grows server key secret chunk_file filestem fuel f
                dry_run rate w) as H.
  destruct (process_file _ _ _ _ _ _ _ _ _ _) as [[sp|e|] w1]; cbn [snd] in *;
    try exact H.
  etrans; [exact H | apply IH].
Qed.

(** X15: when the loop over the chunk files comes to its end, the summary
    paths it returns are those of the files, in file order, after the ones
    it started with, and each of them has been written. *)
Theorem summaries_in_file_order (server : nat -> NetOutcome) (key secret : string)
    (chunk_file : string -> list Row * option exn) (filestem : string -> string)
    (fuel : nat) (dry_run : bool) (rate_limit : nat) (files : list string) :
  forall (summary_files : list string) (w : World),
    match process_files server key secret chunk_file filestem fuel files dry_run
            rate_limit summary_files w with
    | (Ok out, w') =>
        out = summary_files ++ map (summary_path_of filestem) files
        /\ Forall (fun f => exists rows,
                      EWriteSummary (summary_path_of filestem f) rows ∈ w') files
    | _ => True
    end.
Proof.
  induction files as [|f files IH]; intros acc w; cbn [process_files].
  - by rewrite app_nil_r.
  - unfold process_file at 1. destruct (chunk_file f) as [rows err].
    destruct (process_rows _ _ _ _ _ _ _ _ _) as [[res|e|] w1] eqn:Hrows; [|done|done].
    destruct err as [e|]; [done|].
    specialize (IH (acc ++ [summary_path_of filestem f])
                  (w1 ++ [EWriteSummary (summary_path_of filestem f) res])).
    pose proof (process_files_grows server key secret chunk_file filestem fuel
                  dry_run rate_limit files (acc ++ [summary_path_of filestem f])
                  (w1 ++ [EWriteSummary (summary_path_of filestem f) res])) as Hpre.
    destruct (process_files _ _ _ _ _ _ _ _ _ _ _) as [[out|e|] w']; [|done|done].
    cbn [snd] in Hpre.
    destruct IH as (-> & Hall). split; [by rewrite <- app_assoc|].
    apply Forall_cons. split; [|done]. exists res.
    eapply elem_of_prefix; [|exact Hpre]. apply elem_of_app. right. by left.
Qed.

End RowFacts.

(** ** What the retry loop never does *)

Module NetFacts.
Import Step1 Step1Facts Examples Observe.

Lemma net_extends_refl (w : World) : net_extends w w.
Proof. exists []. by rewrite app_nil_r. Qed.

Lemma net_extends_trans (w1 w2 w3 : World) :
  net_extends w1 w2 -> net_extends w2 w3 -> net_extends w1 w3.
Proof.
  intros (a & -> & Ha) (b & -> & Hb). exists (a ++ b).
  rewrite <- app_assoc. split; [done|]. rewrite forallb_app. by rewrite Ha, Hb.
Qed.

Lemma net_extends_add (w : World) (evs : list Event) :
  forallb net_only evs = true -> net_extends w (w ++ evs).
Proof. intros H. by exists evs. Qed.

Lemma net_extends_then (w1 w2 : World) (evs : list Event) :
  net_extends w1 w2 -> forallb net_only evs = true -> net_extends w1 (w2 ++ evs).
Proof.
  intros H1 H2. eapply net_extends_trans; [exact H1 | by apply net_extends_add].
Qed.

Lemma net_extends_writes (w w' : World) :
  net_extends w w' -> filter is_write w' = filter is_write w.
Proof.
  intros (evs & -> & H). rewrite filter_app.
  assert (filter is_write evs = []) as ->; [|by rewrite app_nil_r].
  induction evs as [|e evs IH]; [done|].
  cbn in H. apply andb_true_iff in H as [He Hevs].
  rewrite filter_cons. destruct e; try done; cbn; by apply IH.
Qed.

Section Net.
Variable server : nat -> NetOutcome.

Section Body.
Variable recurse : Payload -> World -> Res PostResult * Payload * World.
Hypothesis recurse_net : forall p w, net_extends w (snd (recurse p w)).

Lemma assign_call_net fr :
  net_extends (world fr) (world (snd (assign_call recurse fr))).
Proof.
  unfold assign_call. pose proof (recurse_net (json_payload fr) (world fr)) as H.
  destruct (recurse _ _) as [[[[[r a] e]|e|] p] w]; exact H.
Qed.

Lemma for_ident_net n : forall i fr,
  net_extends (world fr) (world (snd (for_ident recurse n i fr))).
Proof.
  induction n as [|n IH]; intros i fr; cbn [for_ident]; [apply net_extends_refl|].
  destruct (body_changes (json_payload fr) ≫= _) as [ident|];
    [|apply net_extends_refl].
  set (fr1 := if String.eqb _ _ then _ else fr).
  assert (world fr1 = world fr) as <- by (subst fr1; by destruct (String.eqb _ _)).
  pose proof (assign_call_net fr1) as H.
  destruct (assign_call recurse fr1) as [[[]|e|] fr2]; cbn [snd] in *; try exact H.
  eapply net_extends_trans; [exact H | apply IH].
Qed.

Lemma on_400_net r fr :
  net_extends (world fr) (world (snd (on_400 recurse r fr))).
Proof.
  unfold on_400. destruct (errors_message r) as [m|e]; [|apply net_extends_refl].
  destruct (bool_decide (m = Some MSG_NO_MPID)).
  { apply (assign_call_net (set_payload _ fr)). }
  destruct (bool_decide (m = Some MSG_EMPTY_MODIFY)); [|apply net_extends_refl].
  destruct (body_changes (json_payload fr));
    [apply for_ident_net | apply net_extends_refl].
Qed.

Lemma try_body_net url auth fr :
  net_extends (world fr) (world (snd (try_body server recurse url auth fr))).
Proof.
  unfold try_body, requests_post.
  destruct (server _) as [r|e]; [|by apply net_extends_add].
  destruct (_ && _); [by apply net_extends_add|].
  set (fr' := set_world _ _).
  assert (net_extends (world fr) (world fr')) as H0 by (by apply net_extends_add).
  assert (net_extends (world fr')
            (world (snd (if status_code r =? 400 then on_400 recurse r fr'
                         else (Ok (), fr'))))) as H.
  { destruct (status_code r =? 400); [apply on_400_net | apply net_extends_refl]. }
  destruct (if status_code r =? 400 then _ else _) as [[[]|e|] fr2]; cbn [snd] in *.
  - rewrite after_branch_world. by eapply net_extends_trans.
  - by eapply net_extends_trans.
  - by eapply net_extends_trans.
Qed.
End Body.

Lemma retryable_post_while_net fuel : forall url auth dry_run backoff fr,
  net_extends (world fr)
    (snd (retryable_post_while server fuel url auth dry_run backoff fr)).
Proof.
  induction fuel as [|fuel IH]; intros url auth dry_run backoff fr;
    cbn [retryable_post_while]; destruct (attempt fr <? MAX_RETRIES)%nat;
    try apply net_extends_refl.
  set (recurse := fun (p : Payload) (w : World) => if dry_run then _ else _).
  assert (forall p w, net_extends w (snd (recurse p w))) as Hrec.
  { intros p w. subst recurse. cbn beta. destruct dry_run; [apply net_extends_refl|].
    apply (IH _ _ _ _ (init_frame p w)). }
  pose proof (try_body_net recurse Hrec url auth (set_attempt (S (attempt fr)) fr))
    as H.
  cbn [world set_attempt] in H.
  destruct (try_body _ _ _ _ _) as [[[r|]|e|] fr']; cbn [snd] in *; try exact H.
  - eapply net_extends_trans; [exact H|].
    eapply net_extends_trans; [|apply IH]. by apply net_extends_add.
  - destruct (is_request_exception e); [|exact H].
    eapply net_extends_trans; [exact H|].
    eapply net_extends_trans; [|apply IH]. by apply net_extends_add.
Qed.
End Net.

(** X7: [retryable_post] only adds to the trace, and only POSTs and sleeps:
    it never logs and never writes a summary; with [dry_run] set it adds
    nothing. *)
Theorem retryable_post_posts_and_sleeps_only (server : nat -> NetOutcome)
    (fuel : nat) (url : string) (auth : Auth) (p : Payload) (dry_run : bool)
    (w : World) :
  exists evs,
    snd (retryable_post server fuel url auth p dry_run w) = w ++ evs
    /\ forallb net_only evs = true
    /\ (dry_run = true -> evs = []).
Proof.
  unfold retryable_post. destruct dry_run.
  - exists []. by rewrite app_nil_r.
  - destruct (retryable_post_while_net server fuel url auth false INITIAL_BACKOFF
                (init_frame p w)) as (evs & H1 & H2).
    exists evs. done.
Qed.

Lemma retryable_post_net server fuel url auth p dry_run w :
  net_extends w (snd (retryable_post server fuel url auth p dry_run w)).
Proof.
  unfold retryable_post. destruct dry_run; [apply net_extends_refl|].
  apply (retryable_post_while_net server fuel url auth false INITIAL_BACKOFF
           (init_frame p w)).
Qed.

Lemma process_row_writes server fuel dry_run rate auth row_num row results w :
  filter is_write (snd (process_row server fuel dry_run rate auth row_num row results w))
  = filter is_write w.
Proof.
  assert (forall (w1 : World) (evs : list Event),
            filter is_write evs = [] ->
            filter is_write (w1 ++ evs) = filter is_write w1) as Hadd.
  { intros w1 evs H. by rewrite filter_app, H, app_nil_r. }
  unfold process_row.
  destruct (cell row EMAIL_HEADER) as [email|e|]; [|done|done].
  destruct (cell row MPID_HEADER) as [mpid|e|]; [|done|done].
  destruct (cell row PHONE_HEADER) as [phone|e|]; [|done|done].
  destruct mpid as [mpid|]; [|by apply Hadd].
  destruct dry_run; [by apply Hadd|].
  pose proof (net_extends_writes _ _
                (retryable_post_net server fuel
                   (IDENTITY_BASE_URL +:+ "/" +:+ mpid +:+ "/modify") auth
                   (build_modify_payload email phone ENVIRONMENT) false w)) as H1.
  destruct (retryable_post server fuel _ auth _ false w)
    as [[[[[r a] e]|e|] p1] w1]; cbn [snd] in *; try exact H1.
  destruct (startswith "2" (status_text r)).
  - pose proof (net_extends_writes _ _
                  (retryable_post_net server fuel EVENTS_BASE_URL auth
                     (build_events_payload mpid) false w1)) as H2.
    destruct (retryable_post server fuel EVENTS_BASE_URL auth _ false w1)
      as [[[[[r2 a2] e2]|e2|] p2] w2]; cbn [snd] in *.
    + rewrite Hadd by done. congruence.
    + congruence.
    + congruence.
  - cbn [snd]. by rewrite Hadd.
Qed.

Lemma process_rows_writes server fuel dry_run rate auth rows :
  forall row_num results w,
    filter is_write
      (snd (process_rows server fuel dry_run rate auth row_num rows results w))
    = filter is_write w.
Proof.
  induction rows as [|row rows IH]; intros row_num results w; cbn [process_rows];
    [done|].
  pose proof (process_row_writes server fuel dry_run rate auth (S row_num) row
                results w) as H.
  destruct (process_row _ _ _ _ _ _ _ _ _) as [[res|e|] w1]; cbn [snd] in *;
    try exact H.
  by rewrite IH.
Qed.

(** X14: [process_file] writes the summary of a file only when it returns:
    then the write is its last effect, to the summary path of the file, with
    one record per row of the file, and reading the file raised nothing.
    When it raises, also for a read error after rows have been processed,
    no summary is written. *)
Theorem summary_written_only_on_success (server : nat -> NetOutcome)
    (key secret : string) (chunk_file : string -> list Row * option exn)
    (filestem : string -> string) (fuel : nat) (file_path : string)
    (dry_run : bool) (rate_limit : nat) (w : World) :
  match process_file server key secret chunk_file filestem fuel file_path
          dry_run rate_limit w with
  | (Ok path, w') =>
      path = summary_path_of filestem file_path
      /\ snd (chunk_file file_path) = None
      /\ exists w1 results,
           w' = w1 ++ [EWriteSummary path results]
           /\ filter is_write w1 = filter is_write w
           /\ length results = length (fst (chunk_file file_path))
  | (_, w') => filter is_write w' = filter is_write w
  end.
Proof.
  unfold process_file. destruct (chunk_file file_path) as [rows err]. cbn [fst snd].
  pose proof (process_rows_writes server fuel dry_run rate_limit
                (make_auth key secret) rows 0 [] w) as Hw.
  pose proof (RowFacts.process_rows_appends server fuel dry_run rate_limit
                (make_auth key secret) rows 0 [] w) as Hone.
  destruct (process_rows _ _ _ _ _ _ _ _ _) as [[res|e|] w1]; cbn [fst snd] in *;
    try exact Hw.
  destruct err as [e|]; [exact Hw|].
  split; [done|]. split; [done|]. exists w1, res. split; [done|]. split; [done|].
  destruct Hone as (added & -> & Hlen). done.
Qed.

End NetFacts.

(** ** More on the bulk-events driver of step 2 *)

Module BulkFacts.
Import Step2 Step2Facts Examples Observe.

Lemma chunks_concat {A : Type} (data : list A) (size n : nat) :
  concat (map (fun k => take size (drop (k * size) data)) (seq 0 n))
  = take (n * size) data.
Proof.
  induction n as [|n IH]; [done|].
  rewrite seq_S, map_app, concat_app, IH. cbn [map concat plus].
  rewrite app_nil_r, take_take_drop. f_equal. lia.
Qed.

Lemma chunkify_eq {A : Type} (data : list A) (size : nat) :
  (0 < size)%nat ->
  chunkify data size
  = inr (map (fun k => take size (drop (k * size) data))
             (seq 0 ((length data + size - 1) / size))).
Proof. intros Hs. unfold chunkify. destruct size; [lia | done]. Qed.

Lemma chunks_cover {A : Type} (data : list A) (size : nat) :
  (0 < size)%nat ->
  concat (map (fun k => take size (drop (k * size) data))
              (seq 0 ((length data + size - 1) / size))) = data.
Proof.
  intros Hs.
  pose proof (Nat.div_mod (length data + size - 1) size ltac:(lia)) as Hdm.
  pose proof (Nat.mod_upper_bound (length data + size - 1) size ltac:(lia)) as Hub.
  set (n := ((length data + size - 1) / size)%nat) in *. clearbody n.
  set (m := ((length data + size - 1) mod size)%nat) in *. clearbody m.
  rewrite chunks_concat. apply take_ge. nia.
Qed.

(** X16: for a positive size, the batches of [chunkify] put end to end are
    the data, every batch is non-empty and holds at most [size] rows, and
    there are [ceil (len / size)] of them. *)
Theorem chunkify_partitions {A : Type} (data : list A) (size : nat) :
  (0 < size)%nat ->
  exists chunks,
    chunkify data size = inr chunks
    /\ concat chunks = data
    /\ Forall (fun c => (0 < length c <= size)%nat) chunks
    /\ length chunks = ((length data + size - 1) / size)%nat.
Proof.
  intros Hs.
  rewrite chunkify_eq by done.
  pose proof (chunks_cover data size Hs) as Hcover.
  pose proof (Nat.div_mod (length data + size - 1) size ltac:(lia)) as Hdm.
  pose proof (Nat.mod_upper_bound (length data + size - 1) size ltac:(lia)) as Hub.
  set (n := ((length data + size - 1) / size)%nat) in *. clearbody n.
  set (m := ((length data + size - 1) mod size)%nat) in *. clearbody m.
  eexists. split; [done|]. split; [|split].
  - exact Hcover.
  - apply Forall_forall. intros c Hc.
    apply list_elem_of_fmap in Hc as (k & -> & Hk).
    apply elem_of_seq in Hk.
    rewrite length_take, length_drop. nia.
  - by rewrite length_map, length_seq.
Qed.

Lemma chunkify_partitions_witness :
  exists chunks,
    chunkify [1; 2; 3; 4; 5]%nat 2 = inr chunks
    /\ concat chunks = [1; 2; 3; 4; 5]%nat
    /\ Forall (fun c => (0 < length c <= 2)%nat) chunks
    /\ length chunks = ((length [1; 2; 3; 4; 5]%nat + 2 - 1) / 2)%nat.
Proof. apply chunkify_partitions. lia. Defined.

Lemma logged_app (w1 w2 : World) : logged (w1 ++ w2) = logged w1 ++ logged w2.
Proof.
  induction w1 as [|e w1 IH]; [done|].
  destruct e; cbn [app logged]; try done. by rewrite IH, app_assoc.
Qed.

Lemma posts_one_attempt (w : World) key secret payload msg ms :
  posts_made (w ++ [EPost BULK_API_URL (key, secret) payload;
                    ELog WARNING msg; ESleep ms]) = S (posts_made w).
Proof.
  rewrite bulk_posts_made_app.
  change (posts_made [EPost BULK_API_URL (key, secret) payload;
                      ELog WARNING msg; ESleep ms]) with 1%nat. lia.
Qed.

(** What the loop of [send_batch] can end in, with [n] iterations left and
    the last of them being the last allowed attempt. *)
Lemma send_attempts_shape server key secret batch payload retries backoff n :
  forall attempt w,
    (n + attempt = retries)%nat -> (0 < n)%nat ->
    match send_attempts server key secret batch payload retries backoff n attempt w with
    | (Ok (Some rows), w') =>
        (exists status response, rows = map (log_row status response) batch)
        /\ (posts_made w' <= posts_made w + n)%nat /\ logged w' = logged w
    | (Raised e, w') =>
        is_request_exception e = false
        /\ (posts_made w' <= posts_made w + n)%nat /\ logged w' = logged w
    | _ => False
    end.
Proof.
  induction n as [|n IH]; intros attempt w Hsum Hn; [lia|].
  destruct (server (posts_made w)) as [r|e] eqn:Hs.
  - rewrite (send_attempts_response server key secret batch payload retries
               backoff n attempt w r Hs).
    split; [by eexists _, _|]. rewrite logged_app, bulk_posts_made_app.
    change (posts_made [EPost BULK_API_URL (key, secret) payload]) with 1%nat.
    change (logged [EPost BULK_API_URL (key, secret) payload]) with (@nil LogRow).
    rewrite app_nil_r. split; [lia | done].
  - destruct (is_request_exception e) eqn:He.
    + destruct (Nat.lt_ge_cases attempt (retries - 1)) as [Hlt|Hge].
      * rewrite (send_attempts_retry server key secret batch payload retries
                   backoff n attempt w e Hs He Hlt).
        set (w3 := w ++ _).
        assert (posts_made w3 = S (posts_made w)) as Hp3
          by apply posts_one_attempt.
        assert (logged w3 = logged w) as Hl3.
        { subst w3. rewrite logged_app. cbn [logged]. by rewrite app_nil_r. }
        specialize (IH (S attempt) w3).
        destruct (send_attempts _ _ _ _ _ _ _ _ _ _) as [[[rows|]|e'|] w'].
        -- destruct IH as (H1 & H2 & H3); [lia | lia |].
           split; [done|]. split; [lia | congruence].
        -- destruct IH; lia.
        -- destruct IH as (H1 & H2 & H3); [lia | lia |].
           split; [done|]. split; [lia | congruence].
        -- destruct IH; lia.
      * rewrite (send_attempts_give_up server key secret batch payload retries
                   backoff n attempt w e Hs He Hge).
        split; [by eexists _, _|]. rewrite logged_app, bulk_posts_made_app.
        split; [|cbn [logged]; by rewrite app_nil_r].
        change (posts_made [EPost BULK_API_URL (key, secret) payload;
                            ELog WARNING ("Attempt " +:+ str_of_nat (attempt + 1)
                                          +:+ " failed: " +:+ exc_text e);
                            ELog ERROR ("Batch failed permanently after "
                                        +:+ str_of_nat retries +:+ " attempts: "
                                        +:+ exc_text e)]) with 1%nat.
        lia.
    + cbn [send_attempts]. unfold requests_post. rewrite Hs, He.
      split; [done|]. rewrite logged_app, bulk_posts_made_app.
      change (posts_made [EPost BULK_API_URL (key, secret) payload]) with 1%nat.
      change (logged [EPost BULK_API_URL (key, secret) payload]) with (@nil LogRow).
      rewrite app_nil_r. split; [lia | done].
Qed.

Lemma send_batch_shape server DRY_RUN key secret batch retries backoff w :
  (0 < retries)%nat ->
  match send_batch server DRY_RUN key secret batch retries backoff w with
  | (Ok (Some rows), w') =>
      (exists status response, rows = map (log_row status response) batch)
      /\ (posts_made w' <= posts_made w + retries)%nat /\ logged w' = logged w
  | (Raised e, w') =>
      DRY_RUN = false /\ is_request_exception e = false
      /\ (posts_made w' <= posts_made w + retries)%nat /\ logged w' = logged w
  | _ => False
  end.
Proof.
  intros Hr. unfold send_batch. destruct DRY_RUN.
  - split; [by eexists _, _|]. split; [lia | done].
  - pose proof (send_attempts_shape server key secret batch (map user_event batch)
                  retries backoff retries 0 w ltac:(lia) Hr) as H.
    destruct (send_attempts _ _ _ _ _ _ _ _ _ _) as [[[rows|]|e|] w']; try done.
Qed.

(** X17: with at least one attempt allowed, [send_batch] never returns
    [None]: it returns one log row per row of the batch, all with the same
    status and response cell, or raises an exception that is not a
    [RequestException]; either way it issues at most [retries] POSTs. *)
Theorem send_batch_outcome (server : nat -> NetOutcome) (DRY_RUN : bool)
    (key secret : option string) (batch : list Row) (retries backoff : nat)
    (w : World) :
  (0 < retries)%nat ->
  match send_batch server DRY_RUN key secret batch retries backoff w with
  | (Ok (Some rows), w') =>
      (exists status response, rows = map (log_row status response) batch)
      /\ (posts_made w' <= posts_made w + retries)%nat
  | (Raised e, w') =>
      is_request_exception e = false
      /\ (posts_made w' <= posts_made w + retries)%nat
  | _ => False
  end.
Proof.
  intros Hr.
  pose proof (send_batch_shape server DRY_RUN key secret batch retries backoff w Hr)
    as H.
  destruct (send_batch _ _ _ _ _ _ _ _) as [[[rows|]|e|] w']; try done.
  - destruct H as (H1 & H2 & _). done.
  - destruct H as (_ & H1 & H2 & _). done.
Qed.

Lemma send_batch_outcome_witness :
  match send_batch (always (Fails connection_error)) false None None [row_full]
          3 1000 [] with
  | (Ok (Some rows), w') =>
      (exists status response, rows = map (log_row status response) [row_full])
      /\ (posts_made w' <= posts_made [] + 3)%nat
  | (Raised e, w') =>
      is_request_exception e = false /\ (posts_made w' <= posts_made [] + 3)%nat
  | _ => False
  end.
Proof. apply send_batch_outcome. lia. Defined.

Lemma log_key_log_row status response (batch : list Row) :
  map log_key (map (log_row status response) batch) = map row_key batch.
Proof. rewrite map_map. done. Qed.

Lemma send_batches_logged server DRY_RUN key secret batches : forall w,
  match send_batches server DRY_RUN key secret batches w with
  | (Ok _, w') =>
      map log_key (logged w') = map log_key (logged w) ++ map row_key (concat batches)
  | (Raised e, _) => DRY_RUN = false /\ is_request_exception e = false
  | _ => False
  end.
Proof.
  induction batches as [|b bs IH]; intros w; cbn [send_batches].
  - cbn. by rewrite app_nil_r.
  - pose proof (send_batch_shape server DRY_RUN key secret b 3 1000 w ltac:(lia)) as H.
    destruct (send_batch _ _ _ _ _ _ _ _) as [[[rows|]|e|] w1]; try done.
    + destruct H as ((st & txt & ->) & _ & Hlog). cbn [write_log].
      specialize (IH ((w1 ++ [EWriteLog (map (log_row st txt) b)]) ++ [ESleep 500])).
      destruct (send_batches _ _ _ _ _ _) as [[[]|e|] w']; try done.
      rewrite IH, !logged_app, Hlog. cbn [logged concat].
      rewrite !app_nil_r, !map_app, log_key_log_row. by rewrite <- app_assoc.
    + by destruct H as (H1 & H2 & _).
Qed.

(** X18: when the rows of a chunk file are read and the [try] block comes
    to its end, the log has gained exactly one row per row of the file, in
    file order, each with the [mpid] and [email] of its row.  The block can
    only be left early by an exception that is not a [RequestException],
    and never in dry-run mode. *)
Theorem each_row_logged_once (server : nat -> NetOutcome) (DRY_RUN : bool)
    (key secret : option string) (read_csv : string -> exn + list Row)
    (file_path : string) (data : list Row) (w : World) :
  read_csv file_path = inr data ->
  match process_chunk_file server DRY_RUN key secret read_csv file_path w with
  | (Ok _, w') =>
      map log_key (logged w') = map log_key (logged w) ++ map row_key data
  | (Raised e, _) => DRY_RUN = false /\ is_request_exception e = false
  | _ => False
  end.
Proof.
  intros Hread. unfold process_chunk_file. rewrite Hread.
  rewrite chunkify_eq by (unfold BATCH_SIZE; lia).
  pose proof (send_batches_logged server DRY_RUN key secret
                (map (fun k => take BATCH_SIZE (drop (k * BATCH_SIZE) data))
                     (seq 0 ((length data + BATCH_SIZE - 1) / BATCH_SIZE))) w) as H.
  rewrite chunks_cover in H by (unfold BATCH_SIZE; lia).
  exact H.
Qed.

Lemma each_row_logged_once_witness :
  match process_chunk_file (always (Responds resp_503)) false None None chunks2
          "chunk_part2.csv" [] with
  | (Ok _, w') =>
      map log_key (logged w') = map log_key (logged []) ++ map row_key [row_full]
  | (Raised e, _) => false = false /\ is_request_exception e = false
  | _ => False
  end.
Proof.
  apply (each_row_logged_once (always (Responds resp_503)) false None None chunks2
           "chunk_part2.csv" [row_full] []).
  reflexivity.
Defined.

End BulkFacts.

(** ** More on the chunker *)

Module ChunkFacts.
Import Chunkify ChunkifyFacts.

(** X19: for a chunk size [C > 0], every output file but the last holds
    exactly [C] data rows, and the last holds at most [C], and at least
    one unless the input has no data row. *)
Theorem chunks_are_full (header : CsvRow) (rows : list CsvRow) (chunk_size : nat) :
  (0 < chunk_size)%nat ->
  exists (full : list (list CsvRow)) (last : list CsvRow),
    split_csv (header :: rows) chunk_size = Ok (full ++ [last], S (length full))
    /\ Forall (fun f => length (data_rows f) = chunk_size) full
    /\ (length (data_rows last) <= chunk_size)%nat
    /\ (rows <> [] -> (1 <= length (data_rows last))%nat)
    /\ length rows = (chunk_size * length full + length (data_rows last))%nat.
Proof.
  intros Hc.
  pose proof (chunk_inv_fold header chunk_size rows [] _ Hc
                (chunk_inv_init header chunk_size)) as Hinv.
  cbn [app] in Hinv. unfold split_csv.
  set (st := fold_left _ rows _) in *.
  destruct Hinv as [Hcl (d & Hd & Hlen) Hb Hrows Hcnt Htot Hne].
  exists (closed st), (outfile st). rewrite Hcnt.
  assert (length (data_rows (outfile st)) = row_count st) as Hlast
    by (by rewrite Hd).
  repeat split.
  - eapply Forall_impl; [exact Hcl|]. by intros f (d' & -> & Hd').
  - lia.
  - intros Hr. rewrite Hlast. by apply Hne.
  - lia.
Qed.

Lemma chunks_are_full_witness :
  exists (full : list (list CsvRow)) (last : list CsvRow),
    split_csv (["id"] :: [["1"]; ["2"]; ["3"]]) 2 = Ok (full ++ [last], S (length full))
    /\ Forall (fun f => length (data_rows f) = 2%nat) full
    /\ (length (data_rows last) <= 2)%nat
    /\ ([["1"]; ["2"]; ["3"]] <> [] -> (1 <= length (data_rows last))%nat)
    /\ length [["1"]; ["2"]; ["3"]] = (2 * length full + length (data_rows last))%nat.
Proof. apply chunks_are_full. lia. Defined.

Lemma zero_chunk_fold header rows : forall st,
  let st' := fold_left (write_data_row header 0) rows st in
  closed st' ++ [outfile st']
  = closed st ++ [outfile st] ++ map (fun r => [header; clean_row r]) rows
  /\ file_count st' = (file_count st + length rows)%nat.
Proof.
  induction rows as [|row rows IH]; intros st; cbn zeta.
  - cbn. split; [done | lia].
  - cbn [fold_left]. destruct (IH (write_data_row header 0 st row)) as [H1 H2].
    rewrite H1, H2. unfold write_data_row. cbn.
    rewrite <- app_assoc. split; [done | lia].
Qed.

(** X20: with chunk size 0 the first output file holds the header only and
    every data row gets a file of its own, so [R] data rows give [R + 1]
    files. *)
Theorem zero_chunk_size_one_row_per_file (header : CsvRow) (rows : list CsvRow) :
  split_csv (header :: rows) 0 =
    Ok ([header] :: map (fun r => [header; clean_row r]) rows, S (length rows)).
Proof.
  unfold split_csv.
  destruct (zero_chunk_fold header rows
              {| closed := []; outfile := [header]; file_count := 1; row_count := 0 |})
    as [H1 H2].
  cbn zeta in H1, H2. rewrite H1, H2. done.
Qed.

End ChunkFacts.
